(** * Shoulder kinematics: frame reader and row validation

    A shallow embedding of [spartacus/src/frame_reader.py] (vectors, frames,
    the textual frame parser) and of [shoulder/row_data.py] (the correction
    consistency rules and the resolution of the rotation conversion
    callback), with the properties of the specification stated over it.

    Conventions of the embedding.
    - A Python call either returns a value or raises: [outcome].
    - A reference that may hold [None] is a constructor of the datatype
      ([PyNone]) or an [option].
    - [RowData] methods mutate [self]: they are state transformers that keep
      the state reached when an exception is raised.
    - [print] diagnostics are left out: they do not take part in control
      flow. *)

From Stdlib Require Import Bool List String Ascii ZArith Lia.
From Stdlib Require Import Reals.
From Stdlib Require PrimFloat SpecFloat FloatOps FloatAxioms.
Import ListNotations.

Set Implicit Arguments.

(** ** Python values and exceptions *)

Module Py.

(** The exception classes raised along the embedded paths. *)
Inductive exn : Type :=
| ValueError
| TypeError
| AttributeError
| IndexError
| NotImplementedError.

Inductive outcome (A : Type) : Type :=
| Returns (a : A)
| Raises (e : exn).

Arguments Returns {A} a.
Arguments Raises {A} e.

Definition bind {A B : Type} (c : outcome A) (k : A -> outcome B) : outcome B :=
  match c with
  | Returns a => k a
  | Raises e => Raises e
  end.

Definition returned {A : Type} (c : outcome A) : bool :=
  match c with
  | Returns _ => true
  | Raises _ => false
  end.

Declare Scope py_scope.
Delimit Scope py_scope with py.
Notation "x <- c ;; k" := (bind c (fun x => k))
  (at level 61, c at next level, right associativity) : py_scope.
Notation "' pat <- c ;; k" := (bind c (fun x => match x with pat => k end))
  (at level 61, pat pattern, c at next level, right associativity) : py_scope.

(** *** Strings *)

Local Open Scope string_scope.

(** [sub in s] *)
Fixpoint str_in (sub s : string) : bool :=
  String.prefix sub s ||
  match s with
  | EmptyString => false
  | String _ rest => str_in sub rest
  end.

(** [s.startswith(p)] *)
Definition startswith (s p : string) : bool := String.prefix p s.

Definition str_rev (s : string) : string :=
  string_of_list_ascii (List.rev (list_ascii_of_string s)).

(** [s.endswith(p)] *)
Definition endswith (s p : string) : bool :=
  String.prefix (str_rev p) (str_rev s).

(** [s.split(sep)] for a one-character separator. *)
Fixpoint split (sep : ascii) (s : string) : list string :=
  match s with
  | EmptyString => [EmptyString]
  | String c rest =>
      if Ascii.eqb c sep then EmptyString :: split sep rest
      else
        match split sep rest with
        | [] => [String c EmptyString]
        | w :: ws => String c w :: ws
        end
  end.

(** [s.replace(" ", "")] *)
Fixpoint remove_spaces (s : string) : string :=
  match s with
  | EmptyString => EmptyString
  | String c rest =>
      if Ascii.eqb c " "%char then remove_spaces rest
      else String c (remove_spaces rest)
  end.

(** [s[4:-1]] *)
Definition slice_4_m1 (s : string) : string :=
  String.substring 4 (String.length s - 5) s.

(** [a and b] on values that are [None] or a [bool]: the left operand when
    it is falsy, the right one otherwise. *)
Definition py_and (a b : option bool) : option bool :=
  match a with
  | Some true => b
  | _ => a
  end.

End Py.

Import Py.
Local Open Scope py_scope.


(** ** [enums_biomech]: the enumerations the two files import

    [enums_biomech.py] and [biomech_constant.py] are imported by
    [frame_reader.py]; what the embedded functions use of them is collected
    in the interfaces below. *)

Module EnumsBiomech.

(** The four segments, in the order of the tables of [Frame.has_isb_landmarks]. *)
Inductive Segment : Type := SCAPULA | THORAX | CLAVICLE | HUMERUS.

Definition Segment_eqb (a b : Segment) : bool :=
  match a, b with
  | SCAPULA, SCAPULA | THORAX, THORAX | CLAVICLE, CLAVICLE | HUMERUS, HUMERUS => true
  | _, _ => false
  end.

Inductive CartesianAxis : Type := plusX | plusY | plusZ | minusX | minusY | minusZ.

Definition CartesianAxis_eqb (a b : CartesianAxis) : bool :=
  match a, b with
  | plusX, plusX | plusY, plusY | plusZ, plusZ
  | minusX, minusX | minusY, minusY | minusZ, minusZ => true
  | _, _ => false
  end.

(** [AnatomicalLandmark]: an enumeration with equality, the parser
    [AnatomicalLandmark.from_string] (which may raise), and per segment the
    ISB landmark set ([AnatomicalLandmark.Scapula.isb()], ...) and the ISB
    origin ([AnatomicalLandmark.Scapula.origin_isb()], ...). *)
Class AnatomicalLandmarks (L : Type) : Type := {
  landmark_eqb : L -> L -> bool;
  landmark_eqb_spec : forall a b : L, reflect (a = b) (landmark_eqb a b);
  from_string : string -> outcome L;
  isb : Segment -> list L;
  origin_isb : Segment -> L
}.

End EnumsBiomech.

Import EnumsBiomech.

(** ** numpy arithmetic on 3-vectors *)

Module Numpy.

(** The scalar operations the vector code uses.  They are kept abstract so
    that the control flow of the embedded functions is stated for any
    arithmetic; the instance for binary64 floats follows. *)
Class Arith (num : Type) : Type := {
  nadd : num -> num -> num;
  nsub : num -> num -> num;
  nmul : num -> num -> num;
  ndiv : num -> num -> num;
  nsqrt : num -> num
}.

Definition vec3 (num : Type) : Type := (num * num * num)%type.

Section Vec.
Context {num : Type} `{Arith num}.

(** [a - b] on arrays of shape (3,) *)
Definition vsub (a b : vec3 num) : vec3 num :=
  let '(a0, a1, a2) := a in
  let '(b0, b1, b2) := b in
  (nsub a0 b0, nsub a1 b1, nsub a2 b2).

(** [np.cross(a, b)] *)
Definition cross (a b : vec3 num) : vec3 num :=
  let '(a0, a1, a2) := a in
  let '(b0, b1, b2) := b in
  (nsub (nmul a1 b2) (nmul a2 b1),
   nsub (nmul a2 b0) (nmul a0 b2),
   nsub (nmul a0 b1) (nmul a1 b0)).

(** [np.linalg.norm(v)] *)
Definition norm (v : vec3 num) : num :=
  let '(v0, v1, v2) := v in
  nsqrt (nadd (nadd (nmul v0 v0) (nmul v1 v1)) (nmul v2 v2)).

(** [v / s]: the division is carried out whatever [s] is; numpy signals a
    zero divisor with a warning, not with an exception. *)
Definition vdiv (v : vec3 num) (s : num) : vec3 num :=
  let '(v0, v1, v2) := v in
  (ndiv v0 s, ndiv v1 s, ndiv v2 s).

End Vec.

#[export] Instance float_Arith : Arith PrimFloat.float := {
  nadd := PrimFloat.add;
  nsub := PrimFloat.sub;
  nmul := PrimFloat.mul;
  ndiv := PrimFloat.div;
  nsqrt := PrimFloat.sqrt
}.

(** [biomech_constant.get_constant] (the reference pose table) and
    [CartesianAxis.principal_axis]. *)
Class BiomechConstant (L num : Type) : Type := {
  get_constant : L -> vec3 num;
  principal_axis : vec3 num -> CartesianAxis
}.

End Numpy.

Import Numpy.

(** ** [frame_reader.py] *)

Module FrameReader.

Section Vectors.
Context {L : Type}.

(** [VectorBase] and its two subclasses; [PyNone] stands for a [None] held
    where a vector is expected. *)
Inductive VectorBase : Type :=
| PyNone
| StartEndVector (start end_ : L)
| CrossedVector (vector1 vector2 : VectorBase).

(** The [landmarks] property. *)
Fixpoint landmarks (v : VectorBase) : outcome (list L) :=
  match v with
  | PyNone => Raises AttributeError
  | StartEndVector start end_ => Returns [start; end_]
  | CrossedVector vector1 vector2 =>
      l1 <- landmarks vector1 ;;
      l2 <- landmarks vector2 ;;
      Returns (l1 ++ l2)
  end.

(** No [None] below a vector: what the annotations of the constructors
    ([AnatomicalLandmark], [VectorBase]) ask for. *)
Fixpoint well_formed (v : VectorBase) : bool :=
  match v with
  | PyNone => false
  | StartEndVector _ _ => true
  | CrossedVector vector1 vector2 => well_formed vector1 && well_formed vector2
  end.

Context {num : Type} `{Arith num} `{BiomechConstant L num}.

(** [StartEndVector.compute_default_vector] and
    [CrossedVector.compute_default_vector]. *)
Fixpoint compute_default_vector (v : VectorBase) : outcome (vec3 num) :=
  match v with
  | PyNone => Raises AttributeError
  | StartEndVector start end_ =>
      let vector := vsub (get_constant end_) (get_constant start) in
      Returns (vdiv vector (norm vector))
  | CrossedVector vector1 vector2 =>
      d1 <- compute_default_vector vector1 ;;
      d2 <- compute_default_vector vector2 ;;
      let vector := cross d1 d2 in
      Returns (vdiv vector (norm vector))
  end.

(** The local [vector] of [compute_default_vector]: the landmark difference
    or the cross product, before it is divided by its norm. *)
Definition local_vector (v : VectorBase) : outcome (vec3 num) :=
  match v with
  | PyNone => Raises AttributeError
  | StartEndVector start end_ => Returns (vsub (get_constant end_) (get_constant start))
  | CrossedVector vector1 vector2 =>
      d1 <- compute_default_vector vector1 ;;
      d2 <- compute_default_vector vector2 ;;
      Returns (cross d1 d2)
  end.

(** [VectorBase.principal_direction] *)
Definition principal_direction (v : VectorBase) : outcome CartesianAxis :=
  d <- compute_default_vector v ;;
  Returns (principal_axis d).

End Vectors.

Arguments VectorBase L : clear implicits.

Section Frames.
Context {L : Type} `{AnatomicalLandmarks L}.

(** [Frame.__init__] stores its five arguments. *)
Record Frame : Type := Frame_init {
  x_axis : VectorBase L;
  y_axis : VectorBase L;
  z_axis : VectorBase L;
  origin : L;
  segment : Segment
}.

Definition from_xy (x_axis y_axis : VectorBase L) (origin : L) (segment : Segment) : Frame :=
  Frame_init x_axis y_axis (CrossedVector x_axis y_axis) origin segment.

Definition from_xz (x_axis z_axis : VectorBase L) (origin : L) (segment : Segment) : Frame :=
  Frame_init x_axis (CrossedVector z_axis x_axis) z_axis origin segment.

Definition from_yz (y_axis z_axis : VectorBase L) (origin : L) (segment : Segment) : Frame :=
  Frame_init (CrossedVector y_axis z_axis) y_axis z_axis origin segment.

Definition from_z_crossed_twice (y_axis z_axis : VectorBase L) (origin : L) (segment : Segment)
  : Frame :=
  let x_axis := CrossedVector y_axis z_axis in
  from_xz x_axis z_axis origin segment.

Definition from_y_crossed_twice (x_axis y_axis : VectorBase L) (origin : L) (segment : Segment)
  : Frame :=
  let z_axis := CrossedVector x_axis y_axis in
  from_yz y_axis z_axis origin segment.

Definition from_x_crossed_twice (x_axis z_axis : VectorBase L) (origin : L) (segment : Segment)
  : Frame :=
  let y_axis := CrossedVector z_axis x_axis in
  from_xy x_axis y_axis origin segment.

(** *** The textual parser *)

(** [parse_start_end_vector]: the shape check, then [input[4:-1].split(">")]
    and its first two items. *)
Definition parse_start_end_vector (input : string) : outcome (string * string) :=
  if negb (startswith input "vec(") || negb (endswith input ")") || negb (str_in ">" input)
  then Raises ValueError
  else
    match split ">" (slice_4_m1 input) with
    | a :: b :: _ => Returns (a, b)
    | _ => Raises IndexError
    end.

(** [StartEndVector.from_strings] *)
Definition StartEndVector_from_strings (start end_ : string) : outcome (VectorBase L) :=
  s <- from_string start ;;
  e <- from_string end_ ;;
  Returns (StartEndVector s e).

Definition parse_vector (input : string) : outcome (VectorBase L) :=
  ' (start, end_) <- parse_start_end_vector input ;;
  StartEndVector_from_strings start end_.

(** [parse_crossed_vector]: unpacking [input.split("^")] into two names
    raises [ValueError] unless there are exactly two items. *)
Definition parse_crossed_vector (input side : string) : outcome (VectorBase L) :=
  match split "^" input with
  | [first_vector; second_vector] =>
      if (side =? "all")%string then
        vector1 <- parse_vector first_vector ;;
        vector2 <- parse_vector second_vector ;;
        Returns (CrossedVector vector1 vector2)
      else if (side =? "first")%string then parse_vector first_vector
      else if (side =? "second")%string then parse_vector second_vector
      else Raises ValueError
  | _ => Raises ValueError
  end.

Definition parse_axis (input_str side : string) : outcome (VectorBase L) :=
  let is_crossed := str_in "^" input_str in
  if is_crossed then parse_crossed_vector input_str side
  else if (side =? "first")%string || (side =? "second")%string then Raises ValueError
  else parse_vector input_str.

(** *** Frames from axis tokens *)

Definition from_once_crossed (x_axis y_axis z_axis origin : string) (segment : Segment)
  : outcome Frame :=
  if (x_axis =? "y^z")%string then
    origin <- from_string origin ;;
    y <- parse_axis y_axis "all" ;;
    z <- parse_axis z_axis "all" ;;
    Returns (from_yz y z origin segment)
  else if (y_axis =? "z^x")%string then
    origin <- from_string origin ;;
    x <- parse_axis x_axis "all" ;;
    z <- parse_axis z_axis "all" ;;
    Returns (from_xz x z origin segment)
  else if (z_axis =? "x^y")%string then
    origin <- from_string origin ;;
    x <- parse_axis x_axis "all" ;;
    y <- parse_axis y_axis "all" ;;
    Returns (from_xy x y origin segment)
  else Raises ValueError.

Definition is_x_axis_crossed_twice (x_axis y_axis z_axis : string) : bool :=
  str_in "x^" z_axis && str_in "^x" y_axis.

Definition is_y_axis_crossed_twice (x_axis y_axis z_axis : string) : bool :=
  str_in "y^" x_axis && str_in "^y" z_axis.

Definition is_z_axis_crossed_twice (x_axis y_axis z_axis : string) : bool :=
  str_in "z^" y_axis && str_in "^z" x_axis.

(** [Frame.from_twice_crossed]; falling off the end of the function returns
    [None]. *)
Definition from_twice_crossed (x_axis y_axis z_axis origin : string) (segment : Segment)
  : outcome (option Frame) :=
  if is_x_axis_crossed_twice x_axis y_axis z_axis then
    x <- parse_axis x_axis "all" ;;
    z <- parse_axis y_axis "first" ;;
    origin <- from_string origin ;;
    Returns (Some (from_x_crossed_twice x z origin segment))
  else if is_y_axis_crossed_twice x_axis y_axis z_axis then
    origin <- from_string origin ;;
    Returns (Some (from_y_crossed_twice PyNone PyNone origin segment))
  else if is_z_axis_crossed_twice x_axis y_axis z_axis then
    y <- parse_axis x_axis "first" ;;
    z <- parse_axis z_axis "all" ;;
    origin <- from_string origin ;;
    Returns (Some (from_z_crossed_twice y z origin segment))
  else Returns None.

Definition is_one_axis_crossed_twice (x_axis y_axis z_axis : string) : bool :=
  is_x_axis_crossed_twice x_axis y_axis z_axis
  || is_y_axis_crossed_twice x_axis y_axis z_axis
  || is_z_axis_crossed_twice x_axis y_axis z_axis.

Definition from_xyz_string (x_axis y_axis z_axis origin : string) (segment : Segment)
  : outcome (option Frame) :=
  if is_one_axis_crossed_twice x_axis y_axis z_axis
  then from_twice_crossed x_axis y_axis z_axis origin segment
  else
    f <- from_once_crossed x_axis y_axis z_axis origin segment ;;
    Returns (Some f).

(** *** Classification against the ISB definition *)

(** [tuple(dict.fromkeys(t).keys())]: the items of [t] in order of first
    occurrence. *)
Fixpoint dict_fromkeys (t : list L) : list L :=
  match t with
  | [] => []
  | a :: rest => a :: filter (fun b => negb (landmark_eqb a b)) (dict_fromkeys rest)
  end.

(** [set(a) == set(b)] *)
Definition set_eqb (a b : list L) : bool :=
  forallb (fun x => existsb (landmark_eqb x) b) a
  && forallb (fun y => existsb (landmark_eqb y) a) b.

(** The [Frame.landmarks] property. *)
Definition Frame_landmarks (f : Frame) : outcome (list L) :=
  lx <- landmarks (x_axis f) ;;
  ly <- landmarks (y_axis f) ;;
  lz <- landmarks (z_axis f) ;;
  Returns (dict_fromkeys ((lx ++ ly) ++ lz)).

Definition has_isb_landmarks (f : Frame) : outcome bool :=
  let segment_to_landmark := isb in
  ls <- Frame_landmarks f ;;
  Returns (set_eqb ls (segment_to_landmark (segment f))).

Definition is_origin_isb (f : Frame) : outcome bool :=
  let segment_to_origin_isb := origin_isb in
  Returns (landmark_eqb (origin f) (segment_to_origin_isb (segment f))).

Context {num : Type} `{Arith num} `{BiomechConstant L num}.

Definition is_x_axis_postero_anterior (f : Frame) : outcome bool :=
  d <- principal_direction (x_axis f) ;;
  Returns (CartesianAxis_eqb d plusX).

Definition is_y_axis_supero_inferior (f : Frame) : outcome bool :=
  d <- principal_direction (y_axis f) ;;
  Returns (CartesianAxis_eqb d plusY).

Definition is_z_axis_medio_lateral (f : Frame) : outcome bool :=
  d <- principal_direction (z_axis f) ;;
  Returns (CartesianAxis_eqb d plusZ).

(** [a and b]: [b] is evaluated only when [a] is true. *)
Definition and_then (a : outcome bool) (b : outcome bool) : outcome bool :=
  x <- a ;;
  if x then b else Returns false.

(** The [Frame.is_isb] property. *)
Definition is_isb (f : Frame) : outcome bool :=
  and_then (has_isb_landmarks f)
    (and_then (is_x_axis_postero_anterior f)
       (and_then (is_y_axis_supero_inferior f)
          (and_then (is_z_axis_medio_lateral f)
             (is_origin_isb f)))).

(** *** The anatomical axes of a frame *)

(** The [Frame.axes] property. *)
Definition axes (f : Frame) : list (VectorBase L) := [x_axis f; y_axis f; z_axis f].

(** [for axis in axes: if axis.principal_direction() in (d1, d2): return axis];
    falling off the loop returns [None]. *)
Fixpoint first_axis_along (d1 d2 : CartesianAxis) (axes : list (VectorBase L))
  : outcome (option (VectorBase L)) :=
  match axes with
  | [] => Returns None
  | axis :: rest =>
      d <- principal_direction axis ;;
      if CartesianAxis_eqb d d1 || CartesianAxis_eqb d d2
      then Returns (Some axis)
      else first_axis_along d1 d2 rest
  end.

(** The same loop with [return axis.principal_direction()]. *)
Fixpoint first_direction_along (d1 d2 : CartesianAxis) (axes : list (VectorBase L))
  : outcome (option CartesianAxis) :=
  match axes with
  | [] => Returns None
  | axis :: rest =>
      d <- principal_direction axis ;;
      if CartesianAxis_eqb d d1 || CartesianAxis_eqb d d2
      then (d' <- principal_direction axis ;; Returns (Some d'))
      else first_direction_along d1 d2 rest
  end.

Definition postero_anterior_axis (f : Frame) : outcome (option (VectorBase L)) :=
  first_axis_along plusX minusX (axes f).

Definition infero_superior_axis (f : Frame) : outcome (option (VectorBase L)) :=
  first_axis_along plusY minusY (axes f).

Definition medio_lateral_axis (f : Frame) : outcome (option (VectorBase L)) :=
  first_axis_along plusZ minusZ (axes f).

Definition postero_anterior_local_axis (f : Frame) : outcome (option CartesianAxis) :=
  first_direction_along plusX minusX (axes f).

Definition infero_superior_local_axis (f : Frame) : outcome (option CartesianAxis) :=
  first_direction_along plusY minusY (axes f).

Definition medio_lateral_local_axis (f : Frame) : outcome (option CartesianAxis) :=
  first_direction_along plusZ minusZ (axes f).

(** One axis of the frame is the cross product of the two others, taken in
    the cyclic order x, y, z. *)
Definition one_axis_is_cross_of_others (f : Frame) : Prop :=
  x_axis f = CrossedVector (y_axis f) (z_axis f)
  \/ y_axis f = CrossedVector (z_axis f) (x_axis f)
  \/ z_axis f = CrossedVector (x_axis f) (y_axis f).

(** No [None] in the three axes. *)
Definition axes_well_formed (f : Frame) : bool :=
  well_formed (x_axis f) && well_formed (y_axis f) && well_formed (z_axis f).

End Frames.

Arguments Frame L : clear implicits.

End FrameReader.

(** ** [shoulder/row_data.py] *)

Module Shoulder.

(** The correction tags named by [row_data.py]. *)
Inductive Correction : Type :=
| TO_ISB_ROTATION
| TO_ISB_LIKE_ROTATION
| SCAPULA_KOLZ_AC_TO_PA_ROTATION
| SCAPULA_KOLZ_GLENOID_TO_PA_ROTATION.

Definition Correction_eqb (a b : Correction) : bool :=
  match a, b with
  | TO_ISB_ROTATION, TO_ISB_ROTATION
  | TO_ISB_LIKE_ROTATION, TO_ISB_LIKE_ROTATION
  | SCAPULA_KOLZ_AC_TO_PA_ROTATION, SCAPULA_KOLZ_AC_TO_PA_ROTATION
  | SCAPULA_KOLZ_GLENOID_TO_PA_ROTATION, SCAPULA_KOLZ_GLENOID_TO_PA_ROTATION => true
  | _, _ => false
  end.

(** A declared Euler sequence is a three-letter axis-order string. *)
Definition EulerSequence : Type := string.

(** What [row_data.py] imports from [utils.py] and [checks.py]: the
    classification methods of [BiomechCoordinateSystem] (type [B]), the
    attributes and methods of [Joint] (type [J]), and three functions. *)
Class Utils (B J : Type) : Type := {
  is_isb : B -> bool;
  is_isb_oriented : B -> bool;
  is_origin_on_an_isb_axis : B -> bool;
  is_origin_isb : B -> bool;
  euler_sequence : J -> option EulerSequence;
  isb_euler_sequence : J -> EulerSequence;
  is_sequence_convertible_through_factors : J -> bool;
  check_same_orientation : B -> B -> bool;
  convert_rotation_matrix_from_one_coordinate_system_to_another :
    B -> option EulerSequence -> EulerSequence -> bool * (Z * Z * Z);
  correction_str_to_enum : string -> outcome Correction
}.

(** A cell of the row: a string, a number (which may be NaN), or [None]. *)
Inductive Cell : Type :=
| CellStr (s : string)
| CellNumber (isnan : bool)
| CellNone.

(** The row, seen through the cells the embedded methods read:
    [correction_cell segment] is [row[get_correction_column(segment)]]. *)
Record Row : Type := {
  correction_cell : Segment -> Cell
}.

(** What [extract_corrections] returns: [None], the list of parsed tags, or
    the number found in the cell. *)
Inductive Corrections : Type :=
| NoCorrection
| CorrectionList (l : list Correction)
| RawNumber.

Section Callbacks.
Context {B : Type}.

(** The closures built by the three factories of
    [angle_conversion_callbacks.py], named by factory and arguments. *)
Inductive Callback : Type :=
| get_angle_conversion_callback_from_tuple (tuple_factors : Z * Z * Z)
| get_angle_conversion_callback_from_sequence
    (previous_sequence : option EulerSequence) (new_sequence : EulerSequence)
| get_angle_conversion_callback_to_isb_with_sequence
    (previous_sequence : option EulerSequence) (new_sequence : EulerSequence)
    (bsys_child bsys_parent : B).

End Callbacks.

Arguments Callback B : clear implicits.

(** Modelled from the spec: the closure returned by
    [get_angle_conversion_callback_from_tuple], which is not in the sources.
    A sign-factor conversion multiplies each angle by its factor; angles are
    taken as exact reals. *)
Definition apply_sign_factors (tuple_factors : Z * Z * Z) (angles : R * R * R) : R * R * R :=
  let '(f1, f2, f3) := tuple_factors in
  let '(rot1, rot2, rot3) := angles in
  (rot1 * IZR f1, rot2 * IZR f2, rot3 * IZR f3)%R.

Section RowData.
Context {B J : Type} `{Utils B J}.

(** The attributes set by [RowData.__init__]. *)
Record RowData : Type := {
  row : Row;
  joint : option J;
  parent_segment : Segment;
  parent_columns : list string;
  parent_biomech_sys : option B;
  child_segment : Segment;
  child_columns : list string;
  child_biomech_sys : option B;
  has_rotation_data : option bool;
  has_translation_data : option bool;
  parent_segment_usable_for_rotation_data : option bool;
  child_segment_usable_for_rotation_data : option bool;
  parent_segment_usable_for_translation_data : option bool;
  child_segment_usable_for_translation_data : option bool;
  parent_definition_risk : option bool;
  child_definition_risk : option bool;
  usable_rotation_data : option bool;
  usable_translation_data : option bool;
  rotation_data_risk : option bool;
  translation_data_risk : option bool;
  rotation_correction_callback : option (Callback B);
  translation_correction_callback : option (Callback B)
}.

(** Assignments to the attributes the two methods write. *)
Definition with_parent_segment_usable_for_rotation_data (v : option bool) (s : RowData) :=
  {| row := row s; joint := joint s;
     parent_segment := parent_segment s; parent_columns := parent_columns s;
     parent_biomech_sys := parent_biomech_sys s;
     child_segment := child_segment s; child_columns := child_columns s;
     child_biomech_sys := child_biomech_sys s;
     has_rotation_data := has_rotation_data s;
     has_translation_data := has_translation_data s;
     parent_segment_usable_for_rotation_data := v;
     child_segment_usable_for_rotation_data := child_segment_usable_for_rotation_data s;
     parent_segment_usable_for_translation_data := parent_segment_usable_for_translation_data s;
     child_segment_usable_for_translation_data := child_segment_usable_for_translation_data s;
     parent_definition_risk := parent_definition_risk s;
     child_definition_risk := child_definition_risk s;
     usable_rotation_data := usable_rotation_data s;
     usable_translation_data := usable_translation_data s;
     rotation_data_risk := rotation_data_risk s;
     translation_data_risk := translation_data_risk s;
     rotation_correction_callback := rotation_correction_callback s;
     translation_correction_callback := translation_correction_callback s |}.

Definition with_child_segment_usable_for_rotation_data (v : option bool) (s : RowData) :=
  {| row := row s; joint := joint s;
     parent_segment := parent_segment s; parent_columns := parent_columns s;
     parent_biomech_sys := parent_biomech_sys s;
     child_segment := child_segment s; child_columns := child_columns s;
     child_biomech_sys := child_biomech_sys s;
     has_rotation_data := has_rotation_data s;
     has_translation_data := has_translation_data s;
     parent_segment_usable_for_rotation_data := parent_segment_usable_for_rotation_data s;
     child_segment_usable_for_rotation_data := v;
     parent_segment_usable_for_translation_data := parent_segment_usable_for_translation_data s;
     child_segment_usable_for_translation_data := child_segment_usable_for_translation_data s;
     parent_definition_risk := parent_definition_risk s;
     child_definition_risk := child_definition_risk s;
     usable_rotation_data := usable_rotation_data s;
     usable_translation_data := usable_translation_data s;
     rotation_data_risk := rotation_data_risk s;
     translation_data_risk := translation_data_risk s;
     rotation_correction_callback := rotation_correction_callback s;
     translation_correction_callback := translation_correction_callback s |}.

Definition with_parent_segment_usable_for_translation_data (v : option bool) (s : RowData) :=
  {| row := row s; joint := joint s;
     parent_segment := parent_segment s; parent_columns := parent_columns s;
     parent_biomech_sys := parent_biomech_sys s;
     child_segment := child_segment s; child_columns := child_columns s;
     child_biomech_sys := child_biomech_sys s;
     has_rotation_data := has_rotation_data s;
     has_translation_data := has_translation_data s;
     parent_segment_usable_for_rotation_data := parent_segment_usable_for_rotation_data s;
     child_segment_usable_for_rotation_data := child_segment_usable_for_rotation_data s;
     parent_segment_usable_for_translation_data := v;
     child_segment_usable_for_translation_data := child_segment_usable_for_translation_data s;
     parent_definition_risk := parent_definition_risk s;
     child_definition_risk := child_definition_risk s;
     usable_rotation_data := usable_rotation_data s;
     usable_translation_data := usable_translation_data s;
     rotation_data_risk := rotation_data_risk s;
     translation_data_risk := translation_data_risk s;
     rotation_correction_callback := rotation_correction_callback s;
     translation_correction_callback := translation_correction_callback s |}.

Definition with_child_segment_usable_for_translation_data (v : option bool) (s : RowData) :=
  {| row := row s; joint := joint s;
     parent_segment := parent_segment s; parent_columns := parent_columns s;
     parent_biomech_sys := parent_biomech_sys s;
     child_segment := child_segment s; child_columns := child_columns s;
     child_biomech_sys := child_biomech_sys s;
     has_rotation_data := has_rotation_data s;
     has_translation_data := has_translation_data s;
     parent_segment_usable_for_rotation_data := parent_segment_usable_for_rotation_data s;
     child_segment_usable_for_rotation_data := child_segment_usable_for_rotation_data s;
     parent_segment_usable_for_translation_data := parent_segment_usable_for_translation_data s;
     child_segment_usable_for_translation_data := v;
     parent_definition_risk := parent_definition_risk s;
     child_definition_risk := child_definition_risk s;
     usable_rotation_data := usable_rotation_data s;
     usable_translation_data := usable_translation_data s;
     rotation_data_risk := rotation_data_risk s;
     translation_data_risk := translation_data_risk s;
     rotation_correction_callback := rotation_correction_callback s;
     translation_correction_callback := translation_correction_callback s |}.

Definition with_parent_definition_risk (v : option bool) (s : RowData) :=
  {| row := row s; joint := joint s;
     parent_segment := parent_segment s; parent_columns := parent_columns s;
     parent_biomech_sys := parent_biomech_sys s;
     child_segment := child_segment s; child_columns := child_columns s;
     child_biomech_sys := child_biomech_sys s;
     has_rotation_data := has_rotation_data s;
     has_translation_data := has_translation_data s;
     parent_segment_usable_for_rotation_data := parent_segment_usable_for_rotation_data s;
     child_segment_usable_for_rotation_data := child_segment_usable_for_rotation_data s;
     parent_segment_usable_for_translation_data := parent_segment_usable_for_translation_data s;
     child_segment_usable_for_translation_data := child_segment_usable_for_translation_data s;
     parent_definition_risk := v;
     child_definition_risk := child_definition_risk s;
     usable_rotation_data := usable_rotation_data s;
     usable_translation_data := usable_translation_data s;
     rotation_data_risk := rotation_data_risk s;
     translation_data_risk := translation_data_risk s;
     rotation_correction_callback := rotation_correction_callback s;
     translation_correction_callback := translation_correction_callback s |}.

Definition with_child_definition_risk (v : option bool) (s : RowData) :=
  {| row := row s; joint := joint s;
     parent_segment := parent_segment s; parent_columns := parent_columns s;
     parent_biomech_sys := parent_biomech_sys s;
     child_segment := child_segment s; child_columns := child_columns s;
     child_biomech_sys := child_biomech_sys s;
     has_rotation_data := has_rotation_data s;
     has_translation_data := has_translation_data s;
     parent_segment_usable_for_rotation_data := parent_segment_usable_for_rotation_data s;
     child_segment_usable_for_rotation_data := child_segment_usable_for_rotation_data s;
     parent_segment_usable_for_translation_data := parent_segment_usable_for_translation_data s;
     child_segment_usable_for_translation_data := child_segment_usable_for_translation_data s;
     parent_definition_risk := parent_definition_risk s;
     child_definition_risk := v;
     usable_rotation_data := usable_rotation_data s;
     usable_translation_data := usable_translation_data s;
     rotation_data_risk := rotation_data_risk s;
     translation_data_risk := translation_data_risk s;
     rotation_correction_callback := rotation_correction_callback s;
     translation_correction_callback := translation_correction_callback s |}.

Definition with_usable_rotation_data (v : option bool) (s : RowData) :=
  {| row := row s; joint := joint s;
     parent_segment := parent_segment s; parent_columns := parent_columns s;
     parent_biomech_sys := parent_biomech_sys s;
     child_segment := child_segment s; child_columns := child_columns s;
     child_biomech_sys := child_biomech_sys s;
     has_rotation_data := has_rotation_data s;
     has_translation_data := has_translation_data s;
     parent_segment_usable_for_rotation_data := parent_segment_usable_for_rotation_data s;
     child_segment_usable_for_rotation_data := child_segment_usable_for_rotation_data s;
     parent_segment_usable_for_translation_data := parent_segment_usable_for_translation_data s;
     child_segment_usable_for_translation_data := child_segment_usable_for_translation_data s;
     parent_definition_risk := parent_definition_risk s;
     child_definition_risk := child_definition_risk s;
     usable_rotation_data := v;
     usable_translation_data := usable_translation_data s;
     rotation_data_risk := rotation_data_risk s;
     translation_data_risk := translation_data_risk s;
     rotation_correction_callback := rotation_correction_callback s;
     translation_correction_callback := translation_correction_callback s |}.

Definition with_usable_translation_data (v : option bool) (s : RowData) :=
  {| row := row s; joint := joint s;
     parent_segment := parent_segment s; parent_columns := parent_columns s;
     parent_biomech_sys := parent_biomech_sys s;
     child_segment := child_segment s; child_columns := child_columns s;
     child_biomech_sys := child_biomech_sys s;
     has_rotation_data := has_rotation_data s;
     has_translation_data := has_translation_data s;
     parent_segment_usable_for_rotation_data := parent_segment_usable_for_rotation_data s;
     child_segment_usable_for_rotation_data := child_segment_usable_for_rotation_data s;
     parent_segment_usable_for_translation_data := parent_segment_usable_for_translation_data s;
     child_segment_usable_for_translation_data := child_segment_usable_for_translation_data s;
     parent_definition_risk := parent_definition_risk s;
     child_definition_risk := child_definition_risk s;
     usable_rotation_data := usable_rotation_data s;
     usable_translation_data := v;
     rotation_data_risk := rotation_data_risk s;
     translation_data_risk := translation_data_risk s;
     rotation_correction_callback := rotation_correction_callback s;
     translation_correction_callback := translation_correction_callback s |}.

Definition with_rotation_correction_callback (v : option (Callback B)) (s : RowData) :=
  {| row := row s; joint := joint s;
     parent_segment := parent_segment s; parent_columns := parent_columns s;
     parent_biomech_sys := parent_biomech_sys s;
     child_segment := child_segment s; child_columns := child_columns s;
     child_biomech_sys := child_biomech_sys s;
     has_rotation_data := has_rotation_data s;
     has_translation_data := has_translation_data s;
     parent_segment_usable_for_rotation_data := parent_segment_usable_for_rotation_data s;
     child_segment_usable_for_rotation_data := child_segment_usable_for_rotation_data s;
     parent_segment_usable_for_translation_data := parent_segment_usable_for_translation_data s;
     child_segment_usable_for_translation_data := child_segment_usable_for_translation_data s;
     parent_definition_risk := parent_definition_risk s;
     child_definition_risk := child_definition_risk s;
     usable_rotation_data := usable_rotation_data s;
     usable_translation_data := usable_translation_data s;
     rotation_data_risk := rotation_data_risk s;
     translation_data_risk := translation_data_risk s;
     rotation_correction_callback := v;
     translation_correction_callback := translation_correction_callback s |}.

(** *** Methods as state transformers over [self] *)

Definition M (A : Type) : Type := RowData -> outcome A * RowData.

Definition ret {A : Type} (a : A) : M A := fun s => (Returns a, s).

Definition raise {A : Type} (e : exn) : M A := fun s => (Raises e, s).

Definition mbind {A C : Type} (c : M A) (k : A -> M C) : M C :=
  fun s =>
    match c s with
    | (Returns a, s') => k a s'
    | (Raises e, s') => (Raises e, s')
    end.

(** A call to a function that does not touch [self]. *)
Definition call {A : Type} (o : outcome A) : M A := fun s => (o, s).

(** [self.attr] *)
Definition attr {A : Type} (f : RowData -> A) : M A := fun s => (Returns (f s), s).

(** [self.attr = v] *)
Definition assign (f : RowData -> RowData) : M unit := fun s => (Returns tt, f s).

(** [self.attr.method(...)] where the attribute may still be [None]. *)
Definition deref {A : Type} (f : RowData -> option A) : M A :=
  fun s =>
    match f s with
    | Some a => (Returns a, s)
    | None => (Raises AttributeError, s)
    end.

Declare Scope row_scope.
Delimit Scope row_scope with row.
Local Notation "x <- c ;; k" := (mbind c (fun x => k))
  (at level 61, c at next level, right associativity) : row_scope.
Local Notation "c ;; k" := (mbind c (fun _ => k))
  (at level 61, right associativity) : row_scope.

(** [for i, correction in enumerate(cell): cell[i] = f(correction)] *)
Fixpoint map_in_place {A C : Type} (f : A -> outcome C) (l : list A) : outcome (list C) :=
  match l with
  | [] => Returns []
  | a :: rest =>
      (c <- f a ;;
       cs <- map_in_place f rest ;;
       Returns (c :: cs))%py
  end.

(** [RowData.extract_corrections].  [np.isnan(None)] raises [TypeError]. *)
Definition extract_corrections (segment : Segment) : M Corrections :=
  (r <- attr row ;;
   let correction_cell := correction_cell r segment in
   let correction_cell :=
     match correction_cell with
     | CellStr s => if (s =? "nan")%string then CellNone else correction_cell
     | _ => correction_cell
     end in
   match correction_cell with
   | CellStr s =>
       l <- call (map_in_place correction_str_to_enum (split "," (remove_spaces s))) ;;
       ret (CorrectionList l)
   | CellNumber isnan => if isnan then ret NoCorrection else ret RawNumber
   | CellNone => raise TypeError
   end)%row.

(** [tag in correction]: membership in a list; a number is not iterable. *)
Definition contains (correction : Corrections) (tag : Correction) : outcome bool :=
  match correction with
  | NoCorrection => Returns false
  | CorrectionList l => Returns (existsb (Correction_eqb tag) l)
  | RawNumber => Raises TypeError
  end.

(** [[] if correction is None else correction] *)
Definition or_empty (correction : Corrections) : Corrections :=
  match correction with
  | NoCorrection => CorrectionList []
  | _ => correction
  end.

Definition _check_segment_has_no_correction (correction : Corrections) : bool :=
  match correction with
  | NoCorrection => true
  | _ => false
  end.

Definition _check_segment_has_kolz_correction (correction : Corrections) : outcome bool :=
  (let correction := or_empty correction in
   ac <- contains correction SCAPULA_KOLZ_AC_TO_PA_ROTATION ;;
   condition_scapula <-
     (if ac then Returns true
      else contains correction SCAPULA_KOLZ_GLENOID_TO_PA_ROTATION) ;;
   if negb condition_scapula then Returns false else Returns true)%py.

Definition _check_segment_has_to_isb_correction (correction : Corrections) : outcome bool :=
  (let correction := or_empty correction in
   present <- contains correction TO_ISB_ROTATION ;;
   if negb present then Returns false else Returns true)%py.

Definition _check_segment_has_to_isb_like_correction (correction : Corrections) : outcome bool :=
  (let correction := or_empty correction in
   present <- contains correction TO_ISB_LIKE_ROTATION ;;
   if negb present then Returns false else Returns true)%py.

Definition parent_sys : M B := deref parent_biomech_sys.
Definition child_sys : M B := deref child_biomech_sys.

(** [RowData.check_segments_correction_validity].  The locals
    [parent_output] and [child_output] are threaded through the successive
    [if] statements; each statement returns the pair as it leaves it. *)
Definition check_segments_correction_validity : M (option bool * option bool) :=
  (let parent_output := true in
   let child_output := true in
   pseg <- attr parent_segment ;;
   parent_correction <- extract_corrections pseg ;;
   cseg <- attr child_segment ;;
   child_correction <- extract_corrections cseg ;;
   (* if parent.is_isb() and child.is_isb() *)
   p <- parent_sys ;;
   both <- (if is_isb p then c <- child_sys ;; ret (is_isb c) else ret false) ;;
   out <-
     (if both then
        let parent_output := _check_segment_has_no_correction parent_correction in
        let child_output := _check_segment_has_no_correction child_correction in
        assign (with_parent_segment_usable_for_rotation_data (Some parent_output)) ;;
        assign (with_child_segment_usable_for_rotation_data (Some child_output)) ;;
        assign (with_parent_segment_usable_for_translation_data (Some parent_output)) ;;
        assign (with_child_segment_usable_for_translation_data (Some child_output)) ;;
        ret (parent_output, child_output)
      else ret (parent_output, child_output)) ;;
   let parent_output := fst out in
   let child_output := snd out in
   (* if parent.is_isb_oriented() and parent.is_origin_on_an_isb_axis() *)
   p <- parent_sys ;;
   parent_output <-
     (if is_isb_oriented p && is_origin_on_an_isb_axis p then
        let parent_output := _check_segment_has_no_correction parent_correction in
        assign (with_parent_segment_usable_for_rotation_data (Some parent_output)) ;;
        assign (with_parent_segment_usable_for_translation_data (Some false)) ;;
        ret parent_output
      else ret parent_output) ;;
   (* if child.is_isb_oriented() and child.is_origin_on_an_isb_axis() *)
   c <- child_sys ;;
   child_output <-
     (if is_isb_oriented c && is_origin_on_an_isb_axis c then
        let child_output := _check_segment_has_no_correction child_correction in
        assign (with_child_segment_usable_for_rotation_data (Some child_output)) ;;
        assign (with_child_segment_usable_for_translation_data (Some false)) ;;
        ret child_output
      else ret child_output) ;;
   (* if parent.is_isb_oriented() and not parent.is_origin_on_an_isb_axis() *)
   p <- parent_sys ;;
   parent_output <-
     (if is_isb_oriented p && negb (is_origin_on_an_isb_axis p) then
        pseg <- attr parent_segment ;;
        parent_output <-
          (if Segment_eqb pseg SCAPULA
           then call (_check_segment_has_kolz_correction parent_correction)
           else assign (with_parent_definition_risk (Some true)) ;; ret parent_output) ;;
        assign (with_parent_segment_usable_for_rotation_data (Some parent_output)) ;;
        assign (with_parent_segment_usable_for_translation_data (Some false)) ;;
        ret parent_output
      else ret parent_output) ;;
   (* if child.is_isb_oriented() and not child.is_origin_on_an_isb_axis():
      the Kolz check of the child is stored in parent_output *)
   c <- child_sys ;;
   parent_output <-
     (if is_isb_oriented c && negb (is_origin_on_an_isb_axis c) then
        cseg <- attr child_segment ;;
        parent_output <-
          (if Segment_eqb cseg SCAPULA
           then call (_check_segment_has_kolz_correction child_correction)
           else assign (with_child_definition_risk (Some true)) ;; ret parent_output) ;;
        assign (with_child_segment_usable_for_rotation_data (Some child_output)) ;;
        assign (with_child_segment_usable_for_translation_data (Some false)) ;;
        ret parent_output
      else ret parent_output) ;;
   (* if not parent.is_isb_oriented() and parent.is_origin_on_an_isb_axis() *)
   p <- parent_sys ;;
   parent_output <-
     (if negb (is_isb_oriented p) && is_origin_on_an_isb_axis p then
        parent_output <- call (_check_segment_has_to_isb_correction parent_correction) ;;
        pseg <- attr parent_segment ;;
        parent_output <-
          (if Segment_eqb pseg SCAPULA
           then call (_check_segment_has_kolz_correction parent_correction)
           else ret parent_output) ;;
        assign (with_parent_segment_usable_for_rotation_data (Some parent_output)) ;;
        assign (with_parent_segment_usable_for_translation_data (Some false)) ;;
        ret parent_output
      else ret parent_output) ;;
   (* if not child.is_isb_oriented() and child.is_origin_on_an_isb_axis() *)
   c <- child_sys ;;
   child_output <-
     (if negb (is_isb_oriented c) && is_origin_on_an_isb_axis c then
        child_output <- call (_check_segment_has_to_isb_correction child_correction) ;;
        cseg <- attr child_segment ;;
        child_output <-
          (if Segment_eqb cseg SCAPULA
           then call (_check_segment_has_kolz_correction child_correction)
           else ret child_output) ;;
        assign (with_child_segment_usable_for_rotation_data (Some child_output)) ;;
        assign (with_child_segment_usable_for_translation_data (Some false)) ;;
        ret child_output
      else ret child_output) ;;
   (* if not parent.is_isb_oriented() and not parent.is_origin_on_an_isb_axis() *)
   p <- parent_sys ;;
   parent_output <-
     (if negb (is_isb_oriented p) && negb (is_origin_on_an_isb_axis p) then
        parent_output <- call (_check_segment_has_to_isb_like_correction parent_correction) ;;
        pseg <- attr parent_segment ;;
        parent_output <-
          (if Segment_eqb pseg SCAPULA
           then call (_check_segment_has_kolz_correction parent_correction)
           else ret parent_output) ;;
        assign (with_parent_segment_usable_for_rotation_data (Some parent_output)) ;;
        assign (with_parent_segment_usable_for_translation_data (Some false)) ;;
        assign (with_parent_definition_risk (Some true)) ;;
        ret parent_output
      else ret parent_output) ;;
   (* if not child.is_isb_oriented() and not child.is_origin_on_an_isb_axis() *)
   c <- child_sys ;;
   child_output <-
     (if negb (is_isb_oriented c) && negb (is_origin_on_an_isb_axis c) then
        child_output <- call (_check_segment_has_to_isb_like_correction child_correction) ;;
        cseg <- attr child_segment ;;
        child_output <-
          (if Segment_eqb cseg SCAPULA
           then call (_check_segment_has_kolz_correction child_correction)
           else ret child_output) ;;
        assign (with_child_segment_usable_for_rotation_data (Some child_output)) ;;
        assign (with_child_segment_usable_for_translation_data (Some false)) ;;
        assign (with_child_definition_risk (Some true)) ;;
        ret child_output
      else ret child_output) ;;
   (* the combination of parent and child *)
   child_rotation <- attr child_segment_usable_for_rotation_data ;;
   parent_rotation <- attr parent_segment_usable_for_rotation_data ;;
   assign (with_usable_rotation_data (py_and child_rotation parent_rotation)) ;;
   child_translation <- attr child_segment_usable_for_translation_data ;;
   parent_translation <- attr parent_segment_usable_for_translation_data ;;
   assign (with_usable_translation_data (py_and child_translation parent_translation)) ;;
   rotation <- attr usable_rotation_data ;;
   translation <- attr usable_translation_data ;;
   ret (rotation, translation))%row.

(** Modelled from the spec: [Joint.is_joint_sequence_isb], which is not in
    the sources: the declared sequence matches the canonical ISB sequence of
    the joint. *)
Definition is_joint_sequence_isb (j : J) : bool :=
  match euler_sequence j with
  | Some declared => (declared =? isb_euler_sequence j)%string
  | None => false
  end.

(** [RowData.set_rotation_correction_callback] *)
Definition set_rotation_correction_callback : M unit :=
  (p <- parent_sys ;;
   let parent_isb := is_isb_oriented p in
   c <- child_sys ;;
   let child_isb := is_isb_oriented c in
   if parent_isb && child_isb then
     j <- deref joint ;;
     if is_joint_sequence_isb j then
       assign (with_usable_rotation_data (Some true)) ;;
       assign (with_rotation_correction_callback
                 (Some (get_angle_conversion_callback_from_tuple (1, 1, 1)%Z)))
     else
       assign (with_usable_rotation_data (Some true)) ;;
       j <- deref joint ;;
       assign (with_rotation_correction_callback
                 (Some (get_angle_conversion_callback_from_sequence
                          (euler_sequence j) (isb_euler_sequence j))))
   else if negb parent_isb || negb child_isb then
     p <- parent_sys ;;
     c <- child_sys ;;
     if negb (check_same_orientation p c) then
       assign (with_usable_rotation_data (Some false)) ;;
       assign (with_rotation_correction_callback None) ;;
       raise NotImplementedError
     else
       p <- parent_sys ;;
       j <- deref joint ;;
       let '(is_sequence_convertible_through_factors_, sign_factors) :=
         convert_rotation_matrix_from_one_coordinate_system_to_another
           p (euler_sequence j) (isb_euler_sequence j) in
       j <- deref joint ;;
       if is_sequence_convertible_through_factors j
          && is_sequence_convertible_through_factors_ then
         assign (with_usable_rotation_data (Some true)) ;;
         assign (with_rotation_correction_callback
                   (Some (get_angle_conversion_callback_from_tuple sign_factors)))
       else
         assign (with_usable_rotation_data (Some true)) ;;
         j <- deref joint ;;
         c <- child_sys ;;
         p <- parent_sys ;;
         assign (with_rotation_correction_callback
                   (Some (get_angle_conversion_callback_to_isb_with_sequence
                            (euler_sequence j) (isb_euler_sequence j) c p)))
   else raise NotImplementedError)%row.

(** *** Assertions on runs *)

(** [wp c Q s]: if [c] returns from state [s], its value and final state
    satisfy [Q]. *)
Definition wp {A : Type} (c : M A) (Q : A -> RowData -> Prop) (s : RowData) : Prop :=
  match c s with
  | (Returns a, s') => Q a s'
  | (Raises _, _) => True
  end.

Definition flags_set (rotation translation : option bool) : Prop :=
  (exists b : bool, rotation = Some b) /\ translation = Some false.

(** The classes of a side whose [if] statement has been passed, after
    [k] of the four statements of that side. *)
Definition passed (k : nat) (b : B) : bool :=
  let oriented := is_isb_oriented b in
  let on_axis := is_origin_on_an_isb_axis b in
  match k with
  | 0 => false
  | 1 => oriented && on_axis
  | 2 => oriented && on_axis || oriented && negb on_axis
  | 3 => oriented && on_axis || oriented && negb on_axis || negb oriented && on_axis
  | _ => oriented && on_axis || oriented && negb on_axis || negb oriented && on_axis
         || negb oriented && negb on_axis
  end.

(** [inv p cs pdone cdone s]: the coordinate systems of [s] are still [p]
    and [cs]; once the [if] statement that matches the class of a side has
    been passed, the two flags of that side are set, the translation one to
    [False]. *)
Definition inv (p : B) (cs : option B) (pdone cdone : bool) (s : RowData) : Prop :=
  parent_biomech_sys s = Some p /\
  child_biomech_sys s = cs /\
  (pdone = true ->
   flags_set (parent_segment_usable_for_rotation_data s)
             (parent_segment_usable_for_translation_data s)) /\
  (cdone = true ->
   flags_set (child_segment_usable_for_rotation_data s)
             (child_segment_usable_for_translation_data s)).

(** What a returning run of [check_segments_correction_validity] leaves in
    the flags, and returns. *)
Definition validated (r : option bool * option bool) (rd' : RowData) : Prop :=
  exists parent_rotation child_rotation : bool,
    parent_segment_usable_for_rotation_data rd' = Some parent_rotation /\
    child_segment_usable_for_rotation_data rd' = Some child_rotation /\
    parent_segment_usable_for_translation_data rd' = Some false /\
    child_segment_usable_for_translation_data rd' = Some false /\
    usable_rotation_data rd' = Some (child_rotation && parent_rotation) /\
    usable_translation_data rd' = Some false /\
    r = (Some (child_rotation && parent_rotation), Some false).

(** Both sides are fully ISB and declare no correction. *)
Definition fully_isb_without_correction (rd : RowData) : Prop :=
  exists p c : B,
    parent_biomech_sys rd = Some p /\ child_biomech_sys rd = Some c /\
    is_isb p = true /\ is_isb c = true /\
    fst (extract_corrections (parent_segment rd) rd) = Returns NoCorrection /\
    fst (extract_corrections (child_segment rd) rd) = Returns NoCorrection.

(** The origin of the parent or of the child is not the ISB origin. *)
Definition origin_deviates (rd : RowData) : Prop :=
  exists b : B,
    (parent_biomech_sys rd = Some b \/ child_biomech_sys rd = Some b) /\
    is_origin_isb b = false.

(** Every attribute other than [usable_rotation_data] and
    [rotation_correction_callback] has the same value in [rd'] as in [rd]. *)
Definition same_outside_rotation_result (rd rd' : RowData) : Prop :=
  row rd' = row rd /\
  joint rd' = joint rd /\
  parent_segment rd' = parent_segment rd /\
  parent_columns rd' = parent_columns rd /\
  parent_biomech_sys rd' = parent_biomech_sys rd /\
  child_segment rd' = child_segment rd /\
  child_columns rd' = child_columns rd /\
  child_biomech_sys rd' = child_biomech_sys rd /\
  has_rotation_data rd' = has_rotation_data rd /\
  has_translation_data rd' = has_translation_data rd /\
  parent_segment_usable_for_rotation_data rd' = parent_segment_usable_for_rotation_data rd /\
  child_segment_usable_for_rotation_data rd' = child_segment_usable_for_rotation_data rd /\
  parent_segment_usable_for_translation_data rd'
    = parent_segment_usable_for_translation_data rd /\
  child_segment_usable_for_translation_data rd'
    = child_segment_usable_for_translation_data rd /\
  parent_definition_risk rd' = parent_definition_risk rd /\
  child_definition_risk rd' = child_definition_risk rd /\
  usable_translation_data rd' = usable_translation_data rd /\
  rotation_data_risk rd' = rotation_data_risk rd /\
  translation_data_risk rd' = translation_data_risk rd /\
  translation_correction_callback rd' = translation_correction_callback rd.

(** *** The rotation verdict of one side, as a table *)

(** The test of the first [if] statement. *)
Definition both_isb (p : B) (cs : option B) : bool :=
  is_isb p && match cs with Some c => is_isb c | None => false end.

(** The value of [parent_output] or [child_output] when a side reaches its
    own [if] statement: the no-correction check when both sides are fully
    ISB, [True] otherwise. *)
Definition carried (both : bool) (correction : Corrections) : bool :=
  if both then _check_segment_has_no_correction correction else true.

(** A side that is not ISB-oriented: the rotation tag that matches its
    origin is looked up, then a scapula is judged on its Kolz tag alone. *)
Definition not_isb_oriented_rule (b : B) (segment : Segment) (correction : Corrections)
  : outcome bool :=
  (declared <-
     (if is_origin_on_an_isb_axis b
      then _check_segment_has_to_isb_correction correction
      else _check_segment_has_to_isb_like_correction correction) ;;
   if Segment_eqb segment SCAPULA
   then _check_segment_has_kolz_correction correction
   else Returns declared)%py.

Definition parent_rotation_rule (both : bool) (p : B) (segment : Segment)
    (correction : Corrections) : outcome bool :=
  if is_isb_oriented p then
    if is_origin_on_an_isb_axis p
    then Returns (_check_segment_has_no_correction correction)
    else if Segment_eqb segment SCAPULA
         then _check_segment_has_kolz_correction correction
         else Returns (carried both correction)
  else not_isb_oriented_rule p segment correction.

(** The child differs where it is ISB-oriented with its origin off the
    axes: the Kolz check of a scapula is made, and its result is not used. *)
Definition child_rotation_rule (both : bool) (c : B) (segment : Segment)
    (correction : Corrections) : outcome bool :=
  if is_isb_oriented c then
    if is_origin_on_an_isb_axis c
    then Returns (_check_segment_has_no_correction correction)
    else if Segment_eqb segment SCAPULA
         then (_ <- _check_segment_has_kolz_correction correction ;;
               Returns (carried both correction))%py
         else Returns (carried both correction)
  else not_isb_oriented_rule c segment correction.

(** The invariant that follows one side through the method: the inputs are
    those of [rd]; once the statement of the side's class is passed
    ([done]), the rule has an answer and the flag holds it; until then a
    tracked local holds the carried value. *)
Definition side_inv (rd : RowData) (p : B) (cs : option B)
    (flag : RowData -> option bool) (rule : outcome bool)
    (done : bool) (tracked : option bool) (carriedv : bool) (s : RowData) : Prop :=
  parent_biomech_sys s = Some p /\
  child_biomech_sys s = cs /\
  parent_segment s = parent_segment rd /\
  child_segment s = child_segment rd /\
  (done = true -> exists b : bool, rule = Returns b /\ flag s = Some b) /\
  (done = false -> forall v, tracked = Some v -> v = carriedv).

(** What a returning run decides for the two sides. *)
Definition rotation_decided (rd : RowData) (r : option bool * option bool)
    (rd' : RowData) : Prop :=
  exists (p c : B) (parent_correction child_correction : Corrections)
         (parent_rotation child_rotation : bool),
    parent_biomech_sys rd = Some p /\
    child_biomech_sys rd = Some c /\
    extract_corrections (parent_segment rd) rd = (Returns parent_correction, rd) /\
    extract_corrections (child_segment rd) rd = (Returns child_correction, rd) /\
    parent_rotation_rule (both_isb p (Some c)) p (parent_segment rd) parent_correction
      = Returns parent_rotation /\
    child_rotation_rule (both_isb p (Some c)) c (child_segment rd) child_correction
      = Returns child_rotation /\
    parent_segment_usable_for_rotation_data rd' = Some parent_rotation /\
    child_segment_usable_for_rotation_data rd' = Some child_rotation /\
    r = (Some (child_rotation && parent_rotation), Some false).

(** The side is marked as a definition risk: its origin is off the ISB axes
    and it is not an ISB-oriented scapula. *)
Definition at_definition_risk (b : B) (segment : Segment) : bool :=
  negb (is_origin_on_an_isb_axis b)
  && negb (is_isb_oriented b && Segment_eqb segment SCAPULA).

(** Every attribute that [check_segments_correction_validity] does not
    assign has the same value in [rd'] as in [rd]. *)
Definition same_outside_validation (rd rd' : RowData) : Prop :=
  row rd' = row rd /\
  joint rd' = joint rd /\
  parent_segment rd' = parent_segment rd /\
  parent_columns rd' = parent_columns rd /\
  parent_biomech_sys rd' = parent_biomech_sys rd /\
  child_segment rd' = child_segment rd /\
  child_columns rd' = child_columns rd /\
  child_biomech_sys rd' = child_biomech_sys rd /\
  has_rotation_data rd' = has_rotation_data rd /\
  has_translation_data rd' = has_translation_data rd /\
  rotation_data_risk rd' = rotation_data_risk rd /\
  translation_data_risk rd' = translation_data_risk rd /\
  rotation_correction_callback rd' = rotation_correction_callback rd /\
  translation_correction_callback rd' = translation_correction_callback rd.

(** The sides marked at risk after [k] of the four statements of a side. *)
Definition risk_passed (k : nat) (b : B) (segment : Segment) : bool :=
  match k with
  | 0 | 1 => false
  | 2 | 3 =>
      is_isb_oriented b && negb (is_origin_on_an_isb_axis b)
      && negb (Segment_eqb segment SCAPULA)
  | _ => at_definition_risk b segment
  end.

(** The invariant of the attributes the method does not decide: untouched
    ones keep their value, and a risk flag is [True] once marked. *)
Definition frame_inv (rd : RowData) (parent_marked child_marked : bool) (s : RowData)
  : Prop :=
  same_outside_validation rd s /\
  parent_definition_risk s
  = (if parent_marked then Some true else parent_definition_risk rd) /\
  child_definition_risk s
  = (if child_marked then Some true else child_definition_risk rd).

(** What a returning run leaves outside the usability flags. *)
Definition validation_frame (rd rd' : RowData) : Prop :=
  same_outside_validation rd rd' /\
  exists p c : B,
    parent_biomech_sys rd = Some p /\
    child_biomech_sys rd = Some c /\
    parent_definition_risk rd'
    = (if at_definition_risk p (parent_segment rd)
       then Some true else parent_definition_risk rd) /\
    child_definition_risk rd'
    = (if at_definition_risk c (child_segment rd)
       then Some true else child_definition_risk rd).

End RowData.

Arguments RowData B J : clear implicits.

End Shoulder.

(** ** [spartacus/src/enums.py] *)

Module Enums.

Local Open Scope string_scope.

(** The members of [DataFolder]. *)
Inductive DataFolder : Type :=
| BEGON_2014 | BOURNE_2003 | CHU_2012 | FUNG_2001 | GUTIERREZ_DELGADO_2017
| KOLZ_2020 | MCCLURE_2001 | KIJIMA_2015 | KIM_2017 | KONOZO_2017
| LAWRENCE_2014 | MATSUKI_2011 | MATSUMURA_2013 | MOISSENET | NISHINAKA_2008
| OKI_2012 | SAHARA_2006 | SUGI_2021 | TEECE_2008 | YOSHIDA_2023.

Definition DataFolder_index (d : DataFolder) : nat :=
  match d with
  | BEGON_2014 => 0 | BOURNE_2003 => 1 | CHU_2012 => 2 | FUNG_2001 => 3
  | GUTIERREZ_DELGADO_2017 => 4 | KOLZ_2020 => 5 | MCCLURE_2001 => 6
  | KIJIMA_2015 => 7 | KIM_2017 => 8 | KONOZO_2017 => 9 | LAWRENCE_2014 => 10
  | MATSUKI_2011 => 11 | MATSUMURA_2013 => 12 | MOISSENET => 13
  | NISHINAKA_2008 => 14 | OKI_2012 => 15 | SAHARA_2006 => 16 | SUGI_2021 => 17
  | TEECE_2008 => 18 | YOSHIDA_2023 => 19
  end.

Definition DataFolder_eqb (a b : DataFolder) : bool :=
  Nat.eqb (DataFolder_index a) (DataFolder_index b).

(** The value of a member is the path [<package>/data/<name>]; [folder d] is
    its last component [<name>]. *)
Definition folder (d : DataFolder) : string :=
  match d with
  | BEGON_2014 => "#1_Begon_et_al"
  | BOURNE_2003 => "#2_Bourne_et_al"
  | CHU_2012 => "#3_Chu_et_al"
  | FUNG_2001 => "#4_Fung_et_al"
  | GUTIERREZ_DELGADO_2017 => "#5_Gutierrez_Delgado_et_al"
  | KOLZ_2020 => "Kolz et al 2020"
  | MCCLURE_2001 => "#7_Karduna_et_al"
  | KIJIMA_2015 => "#8_Kijima_et_al"
  | KIM_2017 => "#9_Kim_et_al"
  | KONOZO_2017 => "#10_Kozono_et_al"
  | LAWRENCE_2014 => "#11_Ludewig_et_al"
  | MATSUKI_2011 => "#12_Matsuki_et_al"
  | MATSUMURA_2013 => "#13_Matsumura_et_al"
  | MOISSENET => "#14_Moissenet_et_al"
  | NISHINAKA_2008 => "#15_Nishinaka_et_al"
  | OKI_2012 => "#16_Oki_et_al"
  | SAHARA_2006 => "#17_Sahara_et_al"
  | SUGI_2021 => "#18_Sugi_et_al"
  | TEECE_2008 => "#19_Teece_et_al"
  | YOSHIDA_2023 => "#20_Yoshida_et_al"
  end.

(** [d.get(key)] on a dict literal written as the list of its items. *)
Fixpoint dict_get {K V : Type} (eqb : K -> K -> bool) (d : list (K * V)) (key : K)
  : option V :=
  match d with
  | [] => None
  | (k, v) :: rest => if eqb k key then Some v else dict_get eqb rest key
  end.

(** The dict of [DataFolder.from_string]. *)
Definition folder_name_to_enum : list (string * DataFolder) :=
  [ ("#1_Begon_et_al", BEGON_2014);
    ("#2_Bourne_et_al", BOURNE_2003);
    ("#3_Chu_et_al", CHU_2012);
    ("#4_Fung_et_al", FUNG_2001);
    ("#5_Gutierrez_Delgado_et_al", GUTIERREZ_DELGADO_2017);
    ("Kolz et al 2020", KOLZ_2020);
    ("#7_Karduna_et_al", MCCLURE_2001);
    ("#8_Kijima_et_al", KIJIMA_2015);
    ("#9_Kim_et_al", KIM_2017);
    ("#10_Kozono_et_al", KONOZO_2017);
    ("#11_Ludewig_et_al", LAWRENCE_2014);
    ("#12_Matsuki_et_al", MATSUKI_2011);
    ("#13_Matsumura_et_al", MATSUMURA_2013);
    ("#14_Moissenet_et_al", MOISSENET);
    ("#15_Nishinaka_et_al", NISHINAKA_2008);
    ("#16_Oki_et_al", OKI_2012);
    ("#17_Sahara_et_al", SAHARA_2006);
    ("#18_Sugi_et_al", SUGI_2021);
    ("#19_Teece_et_al", TEECE_2008);
    ("#20_Yoshida_et_al", YOSHIDA_2023) ].

(** [DataFolder.from_string] *)
Definition from_string (data_folder : string) : outcome DataFolder :=
  let the_enum := dict_get String.eqb folder_name_to_enum data_folder in
  match the_enum with
  | None => Raises ValueError
  | Some e => Returns e
  end.

(** The dict of [DataFolder.to_dataset_author]. *)
Definition enum_to_dataset_author : list (DataFolder * string) :=
  [ (BEGON_2014, "Begon et al.");
    (BOURNE_2003, "Bourne et al.");
    (CHU_2012, "Chu et al.");
    (FUNG_2001, "Fung et al.");
    (GUTIERREZ_DELGADO_2017, "Gutierrez Delgado et al.");
    (KOLZ_2020, "Kolz et al.");
    (MCCLURE_2001, "McClure et al.");
    (KIJIMA_2015, "Kijima et al.");
    (KIM_2017, "Kim et al.");
    (KONOZO_2017, "Kozono et al.");
    (LAWRENCE_2014, "Lawrence et al.");
    (MATSUKI_2011, "Matsuki et al.");
    (MATSUMURA_2013, "Matsumura et al.");
    (MOISSENET, "Moissenet et al.");
    (NISHINAKA_2008, "Nishinaka et al.");
    (OKI_2012, "Oki et al.");
    (SAHARA_2006, "Sahara et al.");
    (SUGI_2021, "Sugi et al.");
    (TEECE_2008, "Teece et al.");
    (YOSHIDA_2023, "Yoshida et al.") ].

(** [DataFolder.to_dataset_author] *)
Definition to_dataset_author (self : DataFolder) : outcome string :=
  let the_dataset_author := dict_get DataFolder_eqb enum_to_dataset_author self in
  match the_dataset_author with
  | None => Raises ValueError
  | Some a => Returns a
  end.

End Enums.

(** ** A small instantiation

    The interfaces above are instantiated on a dozen landmarks and on simple
    records, so that the definitions can be run on concrete rows and
    frames. *)

Module Sample.
Import PrimFloat.

Inductive Landmark : Type :=
| IJ | PX | C7 | T8
| SC | AC
| AA | TS | IA
| GH | EL | EM.

Definition Landmark_index (l : Landmark) : nat :=
  match l with
  | IJ => 0 | PX => 1 | C7 => 2 | T8 => 3
  | SC => 4 | AC => 5
  | AA => 6 | TS => 7 | IA => 8
  | GH => 9 | EL => 10 | EM => 11
  end.

Definition Landmark_eqb (a b : Landmark) : bool :=
  Nat.eqb (Landmark_index a) (Landmark_index b).

Definition Landmark_eqb_spec (a b : Landmark) : reflect (a = b) (Landmark_eqb a b).
Proof.
  destruct a, b; unfold Landmark_eqb; simpl; constructor; congruence.
Defined.

Definition Landmark_from_string (s : string) : outcome Landmark :=
  if (s =? "IJ")%string then Returns IJ
  else if (s =? "PX")%string then Returns PX
  else if (s =? "C7")%string then Returns C7
  else if (s =? "T8")%string then Returns T8
  else if (s =? "SC")%string then Returns SC
  else if (s =? "AC")%string then Returns AC
  else if (s =? "AA")%string then Returns AA
  else if (s =? "TS")%string then Returns TS
  else if (s =? "IA")%string then Returns IA
  else if (s =? "GH")%string then Returns GH
  else if (s =? "EL")%string then Returns EL
  else if (s =? "EM")%string then Returns EM
  else Raises ValueError.

#[export] Instance Landmarks : AnatomicalLandmarks Landmark := {
  landmark_eqb := Landmark_eqb;
  landmark_eqb_spec := Landmark_eqb_spec;
  from_string := Landmark_from_string;
  isb := fun segment =>
    match segment with
    | SCAPULA => [AA; TS; IA]
    | THORAX => [IJ; PX; C7; T8]
    | CLAVICLE => [SC; AC; IJ; PX; C7; T8]
    | HUMERUS => [GH; EL; EM]
    end;
  origin_isb := fun segment =>
    match segment with
    | SCAPULA => AA
    | THORAX => IJ
    | CLAVICLE => SC
    | HUMERUS => GH
    end
}.

(** Reference positions in centimetres (x forward, y upward, z to the right). *)
Definition position (l : Landmark) : Z * Z * Z :=
  match l with
  | IJ => (0, 0, 0) | PX => (2, -15, 0) | C7 => (-10, 5, 0) | T8 => (-12, -15, 0)
  | SC => (1, 0, 2) | AC => (-2, 3, 18)
  | AA => (-4, 2, 20) | TS => (-10, 0, 8) | IA => (-10, -12, 10)
  | GH => (0, 0, 20) | EL => (0, -30, 23) | EM => (0, -30, 17)
  end%Z.

Fixpoint float_of_positive (p : positive) : float :=
  match p with
  | xH => 1%float
  | xO q => mul 2%float (float_of_positive q)
  | xI q => add (mul 2%float (float_of_positive q)) 1%float
  end.

Definition float_of_Z (z : Z) : float :=
  match z with
  | Z0 => 0%float
  | Zpos p => float_of_positive p
  | Zneg p => opp (float_of_positive p)
  end.

(** Modelled from the spec: [CartesianAxis.principal_axis], which is not in
    the sources: the signed axis of the component of largest magnitude, the
    first one in the order x, y, z when magnitudes tie. *)
Definition float_principal_axis (v : vec3 float) : CartesianAxis :=
  let '(x, y, z) := v in
  if leb (abs y) (abs x) && leb (abs z) (abs x)
  then (if ltb x 0 then minusX else plusX)
  else if leb (abs z) (abs y)
  then (if ltb y 0 then minusY else plusY)
  else (if ltb z 0 then minusZ else plusZ).

#[export] Instance float_constant : BiomechConstant Landmark float := {
  get_constant := fun l =>
    let '(x, y, z) := position l in (float_of_Z x, float_of_Z y, float_of_Z z);
  principal_axis := float_principal_axis
}.

(** A coordinate system reduced to its classification, and a joint reduced
    to its sequences. *)
Record Sys : Type := {
  oriented : bool;
  origin_is_isb : bool;
  origin_on_axis : bool;
  orientation_pattern : nat
}.

Record Joint : Type := {
  declared_sequence : option Shoulder.EulerSequence;
  canonical_sequence : Shoulder.EulerSequence;
  convertible_through_factors : bool
}.

Definition Correction_from_string (s : string) : outcome Shoulder.Correction :=
  if (s =? "to_isb")%string then Returns Shoulder.TO_ISB_ROTATION
  else if (s =? "to_isb_like")%string then Returns Shoulder.TO_ISB_LIKE_ROTATION
  else if (s =? "kolz_AC_to_PA")%string then Returns Shoulder.SCAPULA_KOLZ_AC_TO_PA_ROTATION
  else if (s =? "kolz_GC_to_PA")%string then Returns Shoulder.SCAPULA_KOLZ_GLENOID_TO_PA_ROTATION
  else Raises ValueError.

#[export] Instance utils : Shoulder.Utils Sys Joint := {
  Shoulder.is_isb := fun b => oriented b && origin_is_isb b;
  Shoulder.is_isb_oriented := oriented;
  Shoulder.is_origin_on_an_isb_axis := origin_on_axis;
  Shoulder.is_origin_isb := origin_is_isb;
  Shoulder.euler_sequence := declared_sequence;
  Shoulder.isb_euler_sequence := canonical_sequence;
  Shoulder.is_sequence_convertible_through_factors := convertible_through_factors;
  Shoulder.check_same_orientation := fun parent child =>
    Nat.eqb (orientation_pattern parent) (orientation_pattern child);
  Shoulder.convert_rotation_matrix_from_one_coordinate_system_to_another :=
    fun _ _ _ => (false, (1, 1, 1)%Z);
  Shoulder.correction_str_to_enum := Correction_from_string
}.

(** A row object as [RowData.__init__] leaves it, once [set_segments] and
    [check_joint_validity] have filled in the coordinate systems and the
    joint. *)
Definition new_row (cells : Segment -> Shoulder.Cell)
    (parent : Segment) (parent_sys : Sys) (child : Segment) (child_sys : Sys)
    (j : Joint) : Shoulder.RowData Sys Joint :=
  {| Shoulder.row := {| Shoulder.correction_cell := cells |};
     Shoulder.joint := Some j;
     Shoulder.parent_segment := parent;
     Shoulder.parent_columns := [];
     Shoulder.parent_biomech_sys := Some parent_sys;
     Shoulder.child_segment := child;
     Shoulder.child_columns := [];
     Shoulder.child_biomech_sys := Some child_sys;
     Shoulder.has_rotation_data := Some true;
     Shoulder.has_translation_data := Some false;
     Shoulder.parent_segment_usable_for_rotation_data := None;
     Shoulder.child_segment_usable_for_rotation_data := None;
     Shoulder.parent_segment_usable_for_translation_data := None;
     Shoulder.child_segment_usable_for_translation_data := None;
     Shoulder.parent_definition_risk := None;
     Shoulder.child_definition_risk := None;
     Shoulder.usable_rotation_data := None;
     Shoulder.usable_translation_data := None;
     Shoulder.rotation_data_risk := None;
     Shoulder.translation_data_risk := None;
     Shoulder.rotation_correction_callback := None;
     Shoulder.translation_correction_callback := None |}.

(** Sample systems, joint and rows. *)
Definition isb_sys : Sys :=
  {| oriented := true; origin_is_isb := true; origin_on_axis := true;
     orientation_pattern := 0 |}.

Definition isb_oriented_off_axis_sys : Sys :=
  {| oriented := true; origin_is_isb := false; origin_on_axis := false;
     orientation_pattern := 0 |}.

Definition isb_oriented_on_axis_sys : Sys :=
  {| oriented := true; origin_is_isb := false; origin_on_axis := true;
     orientation_pattern := 0 |}.

Definition rotated_sys (pattern : nat) : Sys :=
  {| oriented := false; origin_is_isb := true; origin_on_axis := true;
     orientation_pattern := pattern |}.

Definition canonical_joint : Joint :=
  {| declared_sequence := Some "yxz"%string; canonical_sequence := "yxz"%string;
     convertible_through_factors := true |}.

Definition no_correction_cells : Segment -> Shoulder.Cell :=
  fun _ => Shoulder.CellNumber true.

Definition thorax_to_isb_cells : Segment -> Shoulder.Cell :=
  fun segment =>
    match segment with
    | THORAX => Shoulder.CellStr "to_isb"
    | _ => Shoulder.CellNumber true
    end.

(** Thorax (ISB) and scapula (ISB-oriented, origin off the ISB axes), no
    correction declared. *)
Definition scapula_child_row : Shoulder.RowData Sys Joint :=
  new_row no_correction_cells THORAX isb_sys SCAPULA isb_oriented_off_axis_sys
    canonical_joint.

(** The same scapula as parent of an ISB humerus. *)
Definition scapula_parent_row : Shoulder.RowData Sys Joint :=
  new_row no_correction_cells SCAPULA isb_oriented_off_axis_sys HUMERUS isb_sys
    canonical_joint.

(** Two ISB segments, the thorax declaring a correction it should not. *)
Definition overcorrected_row : Shoulder.RowData Sys Joint :=
  new_row thorax_to_isb_cells THORAX isb_sys CLAVICLE isb_sys canonical_joint.

(** Two ISB segments, nothing declared. *)
Definition isb_row : Shoulder.RowData Sys Joint :=
  new_row no_correction_cells THORAX isb_sys CLAVICLE isb_sys canonical_joint.

(** A thorax whose origin is on an ISB axis without being the ISB origin. *)
Definition shifted_origin_row : Shoulder.RowData Sys Joint :=
  new_row no_correction_cells THORAX isb_oriented_on_axis_sys CLAVICLE isb_sys
    canonical_joint.

(** Parent and child rotated away from ISB, with different patterns and with
    the same pattern. *)
Definition mismatched_row : Shoulder.RowData Sys Joint :=
  new_row no_correction_cells THORAX (rotated_sys 0) HUMERUS (rotated_sys 1)
    canonical_joint.

Definition matched_row : Shoulder.RowData Sys Joint :=
  new_row no_correction_cells THORAX (rotated_sys 2) HUMERUS (rotated_sys 2)
    canonical_joint.

(** A humerus frame that follows the ISB definition: y from the lateral
    epicondyle [EL] to [GH], x the cross product of y
    and the epicondyle line, z the cross product of x and y. *)
Definition humerus_isb_frame : FrameReader.Frame Landmark :=
  FrameReader.from_xy
    (FrameReader.CrossedVector (FrameReader.StartEndVector EL GH)
                               (FrameReader.StartEndVector EM EL))
    (FrameReader.StartEndVector EL GH)
    GH HUMERUS.

(** A scapula rotated away from ISB that declares a Kolz correction and
    nothing else, parent of an ISB humerus. *)
Definition scapula_kolz_cells : Segment -> Shoulder.Cell :=
  fun segment =>
    match segment with
    | SCAPULA => Shoulder.CellStr "kolz_AC_to_PA"
    | _ => Shoulder.CellNumber true
    end.

Definition scapula_kolz_row : Shoulder.RowData Sys Joint :=
  new_row scapula_kolz_cells SCAPULA (rotated_sys 0) HUMERUS isb_sys canonical_joint.

End Sample.

(** * Properties *)

(** ** Frame reader *)

Module FrameReaderProps.
Import FrameReader.

Section Classification.
Context {L : Type} `{AnatomicalLandmarks L}.
Context {num : Type} `{Arith num} `{BiomechConstant L num}.

Lemma existsb_landmark_eqb (x : L) (l : list L) :
  existsb (landmark_eqb x) l = true <-> In x l.
Proof.
  rewrite existsb_exists. split.
  - intros [y [Hin Heq]]. destruct (landmark_eqb_spec x y); [subst; assumption | discriminate].
  - intros Hin. exists x. split; [assumption |].
    destruct (landmark_eqb_spec x x); [reflexivity | congruence].
Qed.

Lemma set_eqb_spec (a b : list L) :
  set_eqb a b = true <-> (forall x, In x a <-> In x b).
Proof.
  unfold set_eqb. rewrite andb_true_iff, !forallb_forall. split.
  - intros [Hab Hba] x. split; intros Hx.
    + apply existsb_landmark_eqb, Hab, Hx.
    + apply existsb_landmark_eqb, Hba, Hx.
  - intros Hiff. split; intros x Hx; apply existsb_landmark_eqb, Hiff, Hx.
Qed.

Lemma and_then_true (a b : outcome bool) :
  and_then a b = Returns true <-> a = Returns true /\ b = Returns true.
Proof.
  unfold and_then. destruct a as [[|]|e]; simpl; split; intros Hx;
    try (destruct Hx; congruence); try (split; congruence); discriminate.
Qed.

Lemma has_isb_landmarks_true (f : Frame L) :
  has_isb_landmarks f = Returns true <->
  exists ls, Frame_landmarks f = Returns ls /\
             (forall x, In x ls <-> In x (isb (segment f))).
Proof.
  unfold has_isb_landmarks. destruct (Frame_landmarks f) as [ls|e]; simpl.
  - split.
    + intros Heq. exists ls. split; [reflexivity |].
      apply set_eqb_spec. congruence.
    + intros [ls' [Heq Hset]]. injection Heq as <-.
      apply set_eqb_spec in Hset. now rewrite Hset.
  - split; [discriminate | intros [ls [Heq _]]; discriminate].
Qed.

Lemma axis_check_true (v : VectorBase L) (d : CartesianAxis) :
  (a <- principal_direction v ;; Returns (CartesianAxis_eqb a d)) = Returns true <->
  principal_direction v = Returns d.
Proof.
  destruct (principal_direction v) as [a|e]; simpl.
  - split; intros Hx.
    + destruct a, d; simpl in Hx; congruence.
    + injection Hx as ->. destruct d; reflexivity.
  - split; discriminate.
Qed.

Lemma is_origin_isb_true (f : Frame L) :
  is_origin_isb f = Returns true <-> origin f = origin_isb (segment f).
Proof.
  unfold is_origin_isb.
  destruct (landmark_eqb_spec (origin f) (origin_isb (segment f))); split;
    congruence.
Qed.

(** C5. [Frame.is_isb] is true exactly when its five components are: the
    landmark set of the frame equals the ISB landmark set of its segment,
    the principal directions of the x, y and z axes are +X, +Y and +Z, and
    the origin is the ISB origin of the segment.  Each component is a
    property of its own ([has_isb_landmarks], [is_x_axis_postero_anterior],
    [is_y_axis_supero_inferior], [is_z_axis_medio_lateral],
    [is_origin_isb]). *)
Theorem is_isb_iff_five_components (f : Frame L) :
  (is_isb f = Returns true <->
   has_isb_landmarks f = Returns true /\
   is_x_axis_postero_anterior f = Returns true /\
   is_y_axis_supero_inferior f = Returns true /\
   is_z_axis_medio_lateral f = Returns true /\
   is_origin_isb f = Returns true)
  /\
  (is_isb f = Returns true <->
   (exists ls, Frame_landmarks f = Returns ls /\
               (forall x, In x ls <-> In x (isb (segment f)))) /\
   principal_direction (x_axis f) = Returns plusX /\
   principal_direction (y_axis f) = Returns plusY /\
   principal_direction (z_axis f) = Returns plusZ /\
   origin f = origin_isb (segment f)).
Proof.
  assert (Hfive :
    is_isb f = Returns true <->
    has_isb_landmarks f = Returns true /\
    is_x_axis_postero_anterior f = Returns true /\
    is_y_axis_supero_inferior f = Returns true /\
    is_z_axis_medio_lateral f = Returns true /\
    is_origin_isb f = Returns true).
  { unfold is_isb. rewrite !and_then_true. reflexivity. }
  split; [exact Hfive |].
  rewrite Hfive, has_isb_landmarks_true, is_origin_isb_true.
  unfold is_x_axis_postero_anterior, is_y_axis_supero_inferior,
    is_z_axis_medio_lateral.
  rewrite !axis_check_true. reflexivity.
Qed.

End Classification.

Section DefaultVector.
Context {L num : Type} `{Arith num} `{BiomechConstant L num}.

(** Whatever the arithmetic, a vector without [None] operand has a default
    vector: no path of [compute_default_vector] raises on it. *)
Lemma compute_default_vector_returns (v : VectorBase L) :
  well_formed v = true -> exists d, compute_default_vector v = Returns d.
Proof.
  induction v as [|start end_|v1 IH1 v2 IH2]; simpl; intros Hwf.
  - discriminate.
  - eexists. reflexivity.
  - apply andb_true_iff in Hwf. destruct Hwf as [Hwf1 Hwf2].
    destruct (IH1 Hwf1) as [d1 ->]. destruct (IH2 Hwf2) as [d2 ->].
    simpl. eexists. reflexivity.
Qed.

Lemma compute_default_vector_local_vector (v : VectorBase L) :
  compute_default_vector v = (u <- local_vector v ;; Returns (vdiv u (norm u))).
Proof.
  destruct v as [|start end_|v1 v2]; simpl; try reflexivity.
  destruct (compute_default_vector v1) as [d1|e]; simpl; [|reflexivity].
  destruct (compute_default_vector v2) as [d2|e]; reflexivity.
Qed.

End DefaultVector.

Section Binary64.
Context {L : Type} `{BiomechConstant L PrimFloat.float}.

(** In binary64 [x - x] is [+0] for a finite [x] and NaN for an infinite or
    NaN one. *)
Lemma float_sub_diag (x : PrimFloat.float) :
  PrimFloat.sub x x = PrimFloat.zero \/ PrimFloat.sub x x = PrimFloat.nan.
Proof.
  pose proof (FloatAxioms.sub_spec x x) as Hs.
  unfold FloatAxioms.SF64sub in Hs.
  destruct (FloatOps.Prim2SF x) as [s|s| |s m e].
  - left. apply FloatAxioms.Prim2SF_inj. rewrite Hs. destruct s; reflexivity.
  - right. apply FloatAxioms.Prim2SF_inj. rewrite Hs. destruct s; reflexivity.
  - right. apply FloatAxioms.Prim2SF_inj. rewrite Hs. reflexivity.
  - left. apply FloatAxioms.Prim2SF_inj. rewrite Hs.
    unfold SpecFloat.SFsub. rewrite Z.sub_diag. reflexivity.
Qed.

(** The binary64 product is commutative, roundings and special values
    included. *)
Lemma float_mul_comm (x y : PrimFloat.float) : PrimFloat.mul x y = PrimFloat.mul y x.
Proof.
  apply FloatAxioms.Prim2SF_inj. rewrite !FloatAxioms.mul_spec.
  unfold FloatAxioms.SF64mul.
  destruct (FloatOps.Prim2SF x) as [sx|sx| |sx mx ex],
           (FloatOps.Prim2SF y) as [sy|sy| |sy my ey];
    unfold SpecFloat.SFmul; try reflexivity;
    rewrite ?(xorb_comm sx sy); try reflexivity.
  rewrite (Pos.mul_comm mx my), (Z.add_comm ex ey). reflexivity.
Qed.

(** A vector whose components are [+0] or NaN has norm [0] or NaN, and its
    quotient by that norm is NaN in every component. *)
Lemma null_or_nan_quotient (c0 c1 c2 : PrimFloat.float) :
  c0 = PrimFloat.zero \/ c0 = PrimFloat.nan ->
  c1 = PrimFloat.zero \/ c1 = PrimFloat.nan ->
  c2 = PrimFloat.zero \/ c2 = PrimFloat.nan ->
  vdiv (c0, c1, c2) (norm (c0, c1, c2))
  = (PrimFloat.nan, PrimFloat.nan, PrimFloat.nan).
Proof.
  intros [-> | ->] [-> | ->] [-> | ->]; vm_compute; reflexivity.
Qed.

Lemma vsub_diag_quotient (p : vec3 PrimFloat.float) :
  vdiv (vsub p p) (norm (vsub p p)) = (PrimFloat.nan, PrimFloat.nan, PrimFloat.nan).
Proof.
  destruct p as [[p0 p1] p2]. unfold vsub.
  apply null_or_nan_quotient; apply float_sub_diag.
Qed.

Lemma cross_diag_quotient (d : vec3 PrimFloat.float) :
  vdiv (cross d d) (norm (cross d d)) = (PrimFloat.nan, PrimFloat.nan, PrimFloat.nan).
Proof.
  destruct d as [[d0 d1] d2]. unfold cross. cbn [nsub nmul float_Arith].
  rewrite (float_mul_comm d2 d1), (float_mul_comm d0 d2), (float_mul_comm d1 d0).
  apply null_or_nan_quotient; apply float_sub_diag.
Qed.


End Binary64.

Section Parser.
Context {L : Type} `{AnatomicalLandmarks L}.
Local Open Scope string_scope.

(** C8. Axis tokens that match neither a once-crossed pattern
    ([x_axis == "y^z"], [y_axis == "z^x"], [z_axis == "x^y"]) nor one of the
    three twice-crossed substring patterns make [Frame.from_xyz_string]
    raise [ValueError]: no frame is returned. *)
Theorem from_xyz_string_rejects_other_shapes
    (x_axis y_axis z_axis origin : string) (segment : Segment) :
  x_axis <> "y^z" -> y_axis <> "z^x" -> z_axis <> "x^y" ->
  is_x_axis_crossed_twice x_axis y_axis z_axis = false ->
  is_y_axis_crossed_twice x_axis y_axis z_axis = false ->
  is_z_axis_crossed_twice x_axis y_axis z_axis = false ->
  from_xyz_string (L:=L) x_axis y_axis z_axis origin segment = Raises ValueError.
Proof.
  intros Hx Hy Hz Hxt Hyt Hzt.
  unfold from_xyz_string, is_one_axis_crossed_twice.
  rewrite Hxt, Hyt, Hzt. simpl.
  unfold from_once_crossed.
  apply String.eqb_neq in Hx, Hy, Hz.
  rewrite Hx, Hy, Hz. reflexivity.
Qed.

(** C9 (amended). When the y-axis-crossed-twice pattern matches (["y^"] in
    the x token and ["^y"] in the z token) and the x-axis-crossed-twice
    pattern, which is tested first, does not, [Frame.from_twice_crossed]
    parses none of the axis tokens: it calls [from_y_crossed_twice] with
    [None] for both axes.  Only the origin string is parsed; when it names a
    landmark the call returns a frame whose axes are built on [None]. *)
Theorem from_twice_crossed_y_pattern_null_axes
    (x_axis y_axis z_axis origin : string) (segment : Segment) :
  is_y_axis_crossed_twice x_axis y_axis z_axis = true ->
  is_x_axis_crossed_twice x_axis y_axis z_axis = false ->
  from_twice_crossed (L:=L) x_axis y_axis z_axis origin segment =
    (o <- from_string origin ;;
     Returns (Some (from_y_crossed_twice PyNone PyNone o segment)))
  /\
  forall o : L,
    from_string origin = Returns o ->
    from_twice_crossed x_axis y_axis z_axis origin segment =
      Returns (Some (Frame_init
                       (CrossedVector PyNone (CrossedVector PyNone PyNone))
                       PyNone
                       (CrossedVector PyNone PyNone)
                       o segment)).
Proof.
  intros Hy Hx. unfold from_twice_crossed. rewrite Hx, Hy.
  split; [reflexivity |].
  intros o Ho. rewrite Ho. reflexivity.
Qed.

End Parser.

(** *** Concrete runs *)

Section Runs.
Import Sample.
Local Open Scope string_scope.


(** The quotient by the norm is not a unit vector bit for bit: in binary64
    the default vector from IJ to C7 has a norm just below one. *)
Lemma compute_default_vector_norm_is_rounded :
  exists d : vec3 PrimFloat.float,
    compute_default_vector (StartEndVector IJ C7) = Returns d /\
    PrimFloat.eqb (norm d) PrimFloat.one = false /\
    PrimFloat.ltb (norm d) PrimFloat.one = true.
Proof. eexists. split; [reflexivity |]. split; vm_compute; reflexivity. Qed.


Lemma from_xyz_string_rejects_other_shapes_witness :
  from_xyz_string (L:=Landmark) "vec(GH>EL)" "vec(EL>EM)" "vec(GH>EM)" "GH" HUMERUS
  = Raises ValueError.
Proof.
  apply from_xyz_string_rejects_other_shapes;
    try (intro Heq; discriminate Heq); reflexivity.
Defined.

(** C9, as stated, fails: these tokens match the y-axis-crossed-twice
    pattern, but they match the x-axis-crossed-twice pattern as well; the x
    branch runs, parses the x token and raises. *)
Lemma from_twice_crossed_x_pattern_first :
  is_y_axis_crossed_twice "y^z" "z^x" "x^y" = true
  /\ from_twice_crossed (L:=Landmark) "y^z" "z^x" "x^y" "GH" HUMERUS = Raises ValueError.
Proof. split; reflexivity. Qed.

Lemma from_twice_crossed_y_pattern_null_axes_witness :
  from_twice_crossed (L:=Landmark) "y^vec(EL>EM)" "vec(EL>GH)" "x^y" "GH" HUMERUS =
    (o <- from_string "GH" ;;
     Returns (Some (from_y_crossed_twice PyNone PyNone o HUMERUS)))
  /\
  forall o : Landmark,
    from_string "GH" = Returns o ->
    from_twice_crossed "y^vec(EL>EM)" "vec(EL>GH)" "x^y" "GH" HUMERUS =
      Returns (Some (Frame_init
                       (CrossedVector PyNone (CrossedVector PyNone PyNone))
                       PyNone
                       (CrossedVector PyNone PyNone)
                       o HUMERUS)).
Proof.
  apply from_twice_crossed_y_pattern_null_axes; reflexivity.
Defined.

End Runs.

End FrameReaderProps.

(** ** Row validation and conversion callback *)

Module ShoulderProps.
Import Shoulder.

Section Validation.
Context {B J : Type} `{Utils B J}.

(** [extract_corrections] only reads [self]. *)
Lemma extract_corrections_state (segment : Segment) (s : RowData B J) :
  snd (extract_corrections segment s) = s.
Proof.
  unfold extract_corrections, mbind, attr, call, ret, raise. simpl.
  destruct (correction_cell (row s) segment) as [str|[|]|]; simpl; try reflexivity.
  destruct (str =? "nan")%string; simpl; [reflexivity |].
  destruct (map_in_place correction_str_to_enum (split "," (remove_spaces str)));
    reflexivity.
Qed.

Lemma py_and_bool (a b : bool) : py_and (Some a) (Some b) = Some (a && b).
Proof. destruct a; reflexivity. Qed.

(** *** Rules for [wp] *)

Lemma wp_elim {A : Type} (c : M A) (Q : A -> RowData B J -> Prop) s a s' :
  wp c Q s -> c s = (Returns a, s') -> Q a s'.
Proof. unfold wp. intros Hwp Hrun. rewrite Hrun in Hwp. exact Hwp. Qed.

Lemma wp_bind {A C : Type} (c : M A) (k : A -> M C) (Q : C -> RowData B J -> Prop) s :
  wp c (fun a s' => wp (k a) Q s') s -> wp (mbind c k) Q s.
Proof. unfold wp, mbind. destruct (c s) as [[a|e] s']; trivial. Qed.

Lemma wp_mono {A : Type} (c : M A) (Q Q' : A -> RowData B J -> Prop) s :
  wp c Q s -> (forall a s', Q a s' -> Q' a s') -> wp c Q' s.
Proof. unfold wp. destruct (c s) as [[a|e] s']; auto. Qed.

Lemma wp_seq {A C : Type} (I : RowData B J -> Prop) (c : M A) (k : A -> M C)
    (Q : C -> RowData B J -> Prop) s :
  wp c (fun _ s' => I s') s ->
  (forall a s', I s' -> wp (k a) Q s') ->
  wp (mbind c k) Q s.
Proof.
  intros Hc Hk. apply wp_bind. apply wp_mono with (1 := Hc). intros a s'. apply Hk.
Qed.

Lemma wp_ret {A : Type} (a : A) (Q : A -> RowData B J -> Prop) s :
  Q a s -> wp (ret a) Q s.
Proof. trivial. Qed.

Lemma wp_raise {A : Type} (e : exn) (Q : A -> RowData B J -> Prop) s :
  wp (raise e) Q s.
Proof. exact I. Qed.

Lemma wp_attr {A : Type} (f : RowData B J -> A) (Q : A -> RowData B J -> Prop) s :
  Q (f s) s -> wp (attr f) Q s.
Proof. trivial. Qed.

Lemma wp_assign (g : RowData B J -> RowData B J) (Q : unit -> RowData B J -> Prop) s :
  Q tt (g s) -> wp (assign g) Q s.
Proof. trivial. Qed.

Lemma wp_call {A : Type} (o : outcome A) (Q : A -> RowData B J -> Prop) s :
  (forall a, o = Returns a -> Q a s) -> wp (call o) Q s.
Proof. unfold wp, call. destruct o; auto. Qed.

Lemma wp_deref {A : Type} (f : RowData B J -> option A) (Q : A -> RowData B J -> Prop) s :
  (forall a, f s = Some a -> Q a s) -> wp (deref f) Q s.
Proof. unfold wp, deref. destruct (f s); auto. Qed.

Lemma wp_extract_corrections (segment : Segment) (Q : Corrections -> RowData B J -> Prop) s :
  (forall a, Q a s) -> wp (extract_corrections segment) Q s.
Proof.
  intros HQ. unfold wp.
  pose proof (extract_corrections_state segment s) as Hstate.
  destruct (extract_corrections segment s) as [[a|e] s']; simpl in Hstate; subst; auto.
Qed.

(** One step of symbolic execution. *)
Ltac wp_step :=
  cbv beta zeta;
  lazymatch goal with
  | |- wp (mbind _ _) _ _ => apply wp_bind
  | |- wp (ret _) _ _ => apply wp_ret
  | |- wp (raise _) _ _ => apply wp_raise
  | |- wp (attr _) _ _ => apply wp_attr
  | |- wp (assign _) _ _ => apply wp_assign
  | |- wp (call _) _ _ => apply wp_call
  | |- wp (deref _) _ _ => apply wp_deref
  | |- wp (if ?b then _ else _) _ _ => destruct b eqn:?
  end.

(** *** The invariant of [check_segments_correction_validity] *)

#[local] Abbreviation Inv := (inv (J:=J)).

Lemma passed_all (b : B) : passed 4 b = true.
Proof.
  unfold passed. destruct (is_isb_oriented b), (is_origin_on_an_isb_axis b); reflexivity.
Qed.

Ltac inv_done :=
  lazymatch goal with
  | Hinv : inv _ _ _ _ _ |- _ =>
      let Hp := fresh in
      let Hc := fresh in
      let Hpd := fresh in
      let Hcd := fresh in
      let Hd := fresh "Hd" in
      destruct Hinv as (Hp & Hc & Hpd & Hcd);
      unfold inv, flags_set, passed in *; cbv zeta in *; simpl;
      split; [assumption | split; [assumption | split; intros Hd]];
      first
        [ solve [split; [eexists; reflexivity | reflexivity]]
        | solve [auto]
        | repeat match goal with
                 | Hb : _ = false |- _ => rewrite Hb in Hd
                 end;
          rewrite ?orb_false_r in Hd;
          first [discriminate | solve [auto]] ]
  end.

Ltac block := repeat (wp_step; intros); try inv_done.


(** [self.parent_biomech_sys] is the system of the invariant. *)
Ltac read_parent :=
  cbv beta zeta; apply wp_bind; apply wp_deref;
  let q := fresh "q" in
  let Hq := fresh "Hq" in
  intros q Hq;
  lazymatch goal with
  | Hinv : inv _ _ _ _ _ |- _ =>
      rewrite (proj1 Hinv) in Hq; injection Hq as Hq; subst q
  end.

(** [self.child_biomech_sys] is not [None] where the run goes on. *)
Ltac read_child :=
  cbv beta zeta; apply wp_bind; apply wp_deref;
  let q := fresh "c" in
  let Hq := fresh "Hq" in
  intros q Hq;
  lazymatch goal with
  | Hinv : inv _ _ _ _ _ |- _ =>
      rewrite (proj1 (proj2 Hinv)) in Hq;
      first [ injection Hq as Hq; subst q | subst ]
  end.

Ltac next_block post :=
  apply wp_seq with (I := post);
  [ block
  | lazymatch goal with
    | Hinv : inv _ _ _ _ ?s |- _ => clear Hinv; clear s; intros ? s Hinv
    end ].

Lemma wp_check_segments_correction_validity (rd : RowData B J) :
  wp check_segments_correction_validity validated rd.
Proof.
  unfold check_segments_correction_validity, parent_sys, child_sys.
  wp_step. wp_step. wp_step.
  apply wp_extract_corrections. intros parent_correction.
  wp_step. wp_step. wp_step.
  apply wp_extract_corrections. intros child_correction.
  wp_step. wp_step. intros p Hp.
  remember (child_biomech_sys rd) as cs eqn:Hcs.
  assert (Hinv : inv p cs false false rd).
  { unfold inv. repeat split; auto; discriminate. }
  clear Hp Hcs. revert Hinv. generalize rd as s. intros s Hinv.
  (* both ISB *)
  next_block (Inv p cs false false).
  next_block (Inv p cs false false).
  read_parent.
  next_block (Inv p cs (passed 1 p) false).
  read_child.
  next_block (Inv p (Some c) (passed 1 p) (passed 1 c)).
  read_parent.
  next_block (Inv p (Some c) (passed 2 p) (passed 1 c)).
  read_child.
  next_block (Inv p (Some c) (passed 2 p) (passed 2 c)).
  read_parent.
  next_block (Inv p (Some c) (passed 3 p) (passed 2 c)).
  read_child.
  next_block (Inv p (Some c) (passed 3 p) (passed 3 c)).
  read_parent.
  next_block (Inv p (Some c) (passed 4 p) (passed 3 c)).
  read_child.
  next_block (Inv p (Some c) (passed 4 p) (passed 4 c)).
  destruct Hinv as (_ & _ & Hparent & Hchild).
  destruct (Hparent (passed_all p)) as [[parent_rotation Hpr] Hpt].
  destruct (Hchild (passed_all c)) as [[child_rotation Hcr] Hct].
  repeat wp_step.
  unfold validated. simpl. rewrite Hpr, Hcr, Hpt, Hct.
  exists parent_rotation, child_rotation.
  rewrite py_and_bool. simpl. repeat split; reflexivity.
Qed.

(** The state in which a returning run of
    [check_segments_correction_validity] leaves the usability flags. *)
Lemma check_segments_correction_validity_returns
    (rd rd' : RowData B J) (r : option bool * option bool) :
  check_segments_correction_validity rd = (Returns r, rd') -> validated r rd'.
Proof. apply wp_elim, wp_check_segments_correction_validity. Qed.

(** C2. When [check_segments_correction_validity] returns,
    [usable_translation_data] is [True] only if both coordinate systems are
    fully ISB with no correction declared, and it is [False] as soon as the
    origin of one side is not the ISB origin. *)
Theorem usable_translation_only_when_fully_isb
    (rd rd' : RowData B J) (r : option bool * option bool) :
  check_segments_correction_validity rd = (Returns r, rd') ->
  (usable_translation_data rd' = Some true -> fully_isb_without_correction rd) /\
  (origin_deviates rd -> usable_translation_data rd' = Some false).
Proof.
  intros Hrun.
  apply check_segments_correction_validity_returns in Hrun.
  destruct Hrun as (pr & cr & _ & _ & _ & _ & _ & Htranslation & _).
  split.
  - rewrite Htranslation. discriminate.
  - intros _. exact Htranslation.
Qed.

(** *** One side at a time *)

Lemma wp_seqv {A C : Type} (I : A -> RowData B J -> Prop) (c : M A) (k : A -> M C)
    (Q : C -> RowData B J -> Prop) s :
  wp c I s ->
  (forall a s', I a s' -> wp (k a) Q s') ->
  wp (mbind c k) Q s.
Proof.
  intros Hc Hk. apply wp_bind. apply wp_mono with (1 := Hc). exact Hk.
Qed.

Lemma wp_extract_corrections_value (segment : Segment)
    (Q : Corrections -> RowData B J -> Prop) s :
  (forall a, extract_corrections segment s = (Returns a, s) -> Q a s) ->
  wp (extract_corrections segment) Q s.
Proof.
  intros HQ. unfold wp.
  pose proof (extract_corrections_state segment s) as Hstate.
  destruct (extract_corrections segment s) as [[a|e] s']; simpl in Hstate; subst; auto.
Qed.

Ltac side_split :=
  lazymatch goal with
  | Hinv : side_inv _ _ _ _ _ _ _ _ _ |- _ =>
      let Hp := fresh "Hp" in
      let Hc := fresh "Hc" in
      let Hps := fresh "Hps" in
      let Hcs := fresh "Hcs" in
      let Hdone := fresh "Hdone" in
      let Htrack := fresh "Htrack" in
      destruct Hinv as (Hp & Hc & Hps & Hcs & Hdone & Htrack);
      unfold side_inv; simpl;
      split; [assumption | split; [assumption | split; [assumption |
        split; [assumption | split ]]]]
  end.

Ltac read_sys :=
  cbv beta zeta; apply wp_bind; apply wp_deref;
  let q := fresh "q" in
  let Hq := fresh "Hq" in
  intros q Hq;
  lazymatch goal with
  | Hinv : side_inv _ _ _ _ _ _ _ _ _ |- _ =>
      first [ rewrite (proj1 Hinv) in Hq
            | rewrite (proj1 (proj2 Hinv)) in Hq ];
      first [ injection Hq as Hq; subst q | subst ]
  end.

Ltac side_cases :=
  unfold passed, parent_rotation_rule, child_rotation_rule, not_isb_oriented_rule,
    carried in *;
  cbv zeta in *;
  repeat match goal with
         | Hx : context [is_isb_oriented ?b] |- _ =>
             lazymatch type of Hx with
             | is_isb_oriented b = _ => fail
             | _ => destruct (is_isb_oriented b) eqn:?
             end
         | |- context [is_isb_oriented ?b] => destruct (is_isb_oriented b) eqn:?
         | Hx : context [is_origin_on_an_isb_axis ?b] |- _ =>
             lazymatch type of Hx with
             | is_origin_on_an_isb_axis b = _ => fail
             | _ => destruct (is_origin_on_an_isb_axis b) eqn:?
             end
         | |- context [is_origin_on_an_isb_axis ?b] =>
             destruct (is_origin_on_an_isb_axis b) eqn:?
         end;
  simpl in *; try discriminate.

Ltac side_rewrite :=
  repeat match goal with
         | Hx : parent_segment ?s = _, Hy : context [parent_segment ?s] |- _ =>
             rewrite Hx in Hy
         | Hx : child_segment ?s = _, Hy : context [child_segment ?s] |- _ =>
             rewrite Hx in Hy
         end;
  repeat match goal with
         | Hx : Segment_eqb _ _ = _ |- _ => rewrite Hx in *
         end;
  repeat match goal with
         | Hx : _ = Returns _ |- _ => rewrite Hx in *
         end;
  simpl in *.

Ltac side_tracked :=
  try match goal with
      | Htr : ?x = ?x -> forall v, Some ?l = Some v -> v = _ |- _ =>
          specialize (Htr eq_refl l eq_refl); rewrite Htr in *
      end.

Ltac side_solve :=
  side_split;
  [ let Hd := fresh "Hd" in
    intros Hd; side_cases; side_rewrite; side_tracked;
    first [ solve [eauto] | solve [eexists; split; reflexivity] ]
  | let Hd := fresh "Hd" in
    let v := fresh "v" in
    let Hv := fresh "Hv" in
    intros Hd v Hv; try discriminate Hv; injection Hv as <-;
    side_cases; side_rewrite;
    first [ reflexivity | solve [eauto] | solve [symmetry; eauto] ] ].

Ltac side_block done tracked v :=
  lazymatch goal with
  | Hinv : side_inv ?rd ?p ?cs ?flag ?rule _ _ ?cv ?s |- _ =>
      apply wp_seqv
        with (I := fun v s' => side_inv rd p cs flag rule done (tracked v) cv s');
      [ repeat (wp_step; intros); side_solve
      | clear Hinv; clear s; intros v s Hinv; cbv beta in Hinv ]
  end.

Lemma wp_parent_rotation (rd : RowData B J) :
  wp check_segments_correction_validity
     (fun _ rd' =>
        exists p pc pb,
          parent_biomech_sys rd = Some p /\
          extract_corrections (parent_segment rd) rd = (Returns pc, rd) /\
          parent_rotation_rule (both_isb p (child_biomech_sys rd)) p (parent_segment rd) pc
            = Returns pb /\
          parent_segment_usable_for_rotation_data rd' = Some pb)
     rd.
Proof.
  unfold check_segments_correction_validity, parent_sys, child_sys.
  wp_step. wp_step. wp_step.
  apply wp_extract_corrections_value. intros pc Hpc.
  wp_step. wp_step. wp_step.
  apply wp_extract_corrections. intros cc.
  wp_step. wp_step. intros p Hp.
  remember (child_biomech_sys rd) as cs eqn:Hcs.
  assert (Hinv : side_inv rd p cs
                   (parent_segment_usable_for_rotation_data (B:=B) (J:=J))
                   (parent_rotation_rule (both_isb p cs) p (parent_segment rd) pc)
                   false None (carried (both_isb p cs) pc) rd).
  { unfold side_inv. repeat split; auto; discriminate. }
  lazymatch goal with
  | |- wp ?c ?Q rd =>
      enough (Hgen : forall s,
                 side_inv rd p cs
                   (parent_segment_usable_for_rotation_data (B:=B) (J:=J))
                   (parent_rotation_rule (both_isb p cs) p (parent_segment rd) pc)
                   false None (carried (both_isb p cs) pc) s ->
                 wp c Q s)
        by (apply Hgen; exact Hinv)
  end.
  clear Hinv. intros s Hinv.
  (* the test of the first statement *)
  apply wp_seqv
    with (I := fun v s' =>
                 v = both_isb p cs /\
                 side_inv rd p cs
                   (parent_segment_usable_for_rotation_data (B:=B) (J:=J))
                   (parent_rotation_rule (both_isb p cs) p (parent_segment rd) pc)
                   false None (carried (both_isb p cs) pc) s').
  { repeat (wp_step; intros); (split; [|exact Hinv]); unfold both_isb.
    - destruct Hinv as (_ & Hc & _). rewrite <- Hc, H0, Heqb. reflexivity.
    - rewrite Heqb. reflexivity. }
  clear s Hinv. intros both0 s [-> Hinv].
  side_block false (fun out : bool * bool => Some (fst out)) out.
  read_sys.
  side_block (passed 1 p) (fun po : bool => Some po) po.
  read_sys.
  side_block (passed 1 p) (fun _ : bool => Some po) co.
  read_sys.
  side_block (passed 2 p) (fun _ : bool => @None bool) po2.
  read_sys.
  side_block (passed 2 p) (fun _ : bool => @None bool) po3.
  read_sys.
  side_block (passed 3 p) (fun _ : bool => @None bool) po4.
  read_sys.
  side_block (passed 3 p) (fun _ : bool => @None bool) co2.
  read_sys.
  side_block (passed 4 p) (fun _ : bool => @None bool) po5.
  read_sys.
  side_block (passed 4 p) (fun _ : bool => @None bool) co3.
  destruct Hinv as (_ & _ & _ & _ & Hdone & _).
  destruct (Hdone (passed_all p)) as (pb & Hrule & Hflag).
  repeat wp_step. simpl.
  exists p, pc, pb. repeat split; assumption.
Qed.

Ltac read_known :=
  cbv beta zeta; apply wp_bind; apply wp_deref;
  let q := fresh "q" in
  let Hq := fresh "Hq" in
  intros q Hq;
  lazymatch goal with
  | Hinv : side_inv _ _ _ _ _ _ _ _ _ |- _ =>
      first [ rewrite (proj1 Hinv) in Hq
            | rewrite (proj1 (proj2 Hinv)) in Hq ];
      first [ injection Hq as Hq; subst q | rewrite Hq in * ]
  end.

Lemma wp_child_rotation (rd : RowData B J) :
  wp check_segments_correction_validity
     (fun _ rd' =>
        exists p c cc cb,
          parent_biomech_sys rd = Some p /\
          child_biomech_sys rd = Some c /\
          extract_corrections (child_segment rd) rd = (Returns cc, rd) /\
          child_rotation_rule (both_isb p (Some c)) c (child_segment rd) cc = Returns cb /\
          child_segment_usable_for_rotation_data rd' = Some cb)
     rd.
Proof.
  unfold check_segments_correction_validity, parent_sys, child_sys.
  wp_step. wp_step. wp_step.
  apply wp_extract_corrections. intros pc.
  wp_step. wp_step. wp_step.
  apply wp_extract_corrections_value. intros cc Hcc.
  wp_step. wp_step. intros p Hp.
  pose (rule :=
          match child_biomech_sys rd with
          | Some c =>
              child_rotation_rule (both_isb p (child_biomech_sys rd)) c
                (child_segment rd) cc
          | None => Raises AttributeError
          end).
  assert (Hinv : side_inv rd p (child_biomech_sys rd)
                   (child_segment_usable_for_rotation_data (B:=B) (J:=J))
                   rule false None
                   (carried (both_isb p (child_biomech_sys rd)) cc) rd).
  { unfold side_inv. repeat split; auto; discriminate. }
  lazymatch goal with
  | |- wp ?c ?Q rd =>
      enough (Hgen : forall s,
                 side_inv rd p (child_biomech_sys rd)
                   (child_segment_usable_for_rotation_data (B:=B) (J:=J))
                   rule false None
                   (carried (both_isb p (child_biomech_sys rd)) cc) s ->
                 wp c Q s)
        by (apply Hgen; exact Hinv)
  end.
  clear Hinv. subst rule. intros s Hinv.
  apply wp_seqv
    with (I := fun v s' =>
                 v = both_isb p (child_biomech_sys rd) /\
                 side_inv rd p (child_biomech_sys rd)
                   (child_segment_usable_for_rotation_data (B:=B) (J:=J))
                   match child_biomech_sys rd with
                   | Some c =>
                       child_rotation_rule (both_isb p (child_biomech_sys rd)) c
                         (child_segment rd) cc
                   | None => Raises AttributeError
                   end
                   false None
                   (carried (both_isb p (child_biomech_sys rd)) cc) s').
  { repeat (wp_step; intros); (split; [|exact Hinv]); unfold both_isb.
    - destruct Hinv as (_ & Hc & _). rewrite <- Hc, H0, Heqb. reflexivity.
    - rewrite Heqb. reflexivity. }
  clear s Hinv. intros both0 s [-> Hinv].
  side_block false (fun out : bool * bool => Some (snd out)) out.
  read_known.
  side_block false (fun _ : bool => Some (snd out)) po.
  read_known.
  side_block (passed 1 q) (fun co : bool => Some co) co.
  read_known.
  side_block (passed 1 q) (fun _ : bool => Some co) po2.
  read_known.
  side_block (passed 2 q) (fun _ : bool => @None bool) po3.
  read_known.
  side_block (passed 2 q) (fun _ : bool => @None bool) po4.
  read_known.
  side_block (passed 3 q) (fun _ : bool => @None bool) co2.
  read_known.
  side_block (passed 3 q) (fun _ : bool => @None bool) po5.
  read_known.
  side_block (passed 4 q) (fun _ : bool => @None bool) co3.
  destruct Hinv as (_ & _ & _ & _ & Hdone & _).
  destruct (Hdone (passed_all q)) as (cb & Hrule & Hflag).
  repeat wp_step. simpl.
  exists p, q, cc, cb. repeat split; assumption.
Qed.

(** X14. The rotation verdict of a returning run, side by side: the flag of
    each side is the answer of its rule, and the method returns their
    conjunction.  A side that is ISB-oriented with its origin on an ISB axis
    must declare nothing; a side that is not ISB-oriented must declare the
    rotation tag that matches its origin, except a scapula, which is judged
    on its Kolz tag alone; an ISB-oriented parent scapula off the axes needs
    a Kolz tag, and the same child does not. *)
Theorem rotation_verdict_follows_rules
    (rd rd' : RowData B J) (r : option bool * option bool) :
  check_segments_correction_validity rd = (Returns r, rd') ->
  rotation_decided rd r rd'.
Proof.
  intros Hrun.
  pose proof (wp_parent_rotation rd) as Wp. unfold wp in Wp. rewrite Hrun in Wp.
  destruct Wp as (p & pc & pb & Hp & Hpc & Hprule & Hpflag).
  pose proof (wp_child_rotation rd) as Wc. unfold wp in Wc. rewrite Hrun in Wc.
  destruct Wc as (p' & c & cc & cb & Hp' & Hc & Hcc & Hcrule & Hcflag).
  apply check_segments_correction_validity_returns in Hrun.
  destruct Hrun as (pr & cr & Hpr & Hcr & _ & _ & _ & _ & Hr).
  rewrite Hp in Hp'. injection Hp' as <-.
  rewrite Hc in Hprule.
  rewrite Hpflag in Hpr. injection Hpr as <-.
  rewrite Hcflag in Hcr. injection Hcr as <-.
  exists p, c, pc, cc, pb, cb. repeat split; assumption.
Qed.

(** *** What the method leaves alone *)

Ltac frame_solve :=
  lazymatch goal with
  | Hinv : frame_inv _ _ _ _ |- _ =>
      let Hsame := fresh "Hsame" in
      let Hpr := fresh "Hpr" in
      let Hcr := fresh "Hcr" in
      destruct Hinv as (Hsame & Hpr & Hcr);
      unfold frame_inv, same_outside_validation, risk_passed, at_definition_risk in *;
      simpl;
      decompose [and] Hsame;
      repeat match goal with
             | Hx : parent_segment ?s = _, Hy : context [parent_segment ?s] |- _ =>
                 rewrite Hx in Hy
             | Hx : child_segment ?s = _, Hy : context [child_segment ?s] |- _ =>
                 rewrite Hx in Hy
             end;
      repeat match goal with
             | Hx : context [is_isb_oriented ?b] |- _ =>
                 lazymatch type of Hx with
                 | is_isb_oriented b = _ => fail
                 | _ => destruct (is_isb_oriented b) eqn:?
                 end
             | |- context [is_isb_oriented ?b] => destruct (is_isb_oriented b) eqn:?
             | Hx : context [is_origin_on_an_isb_axis ?b] |- _ =>
                 lazymatch type of Hx with
                 | is_origin_on_an_isb_axis b = _ => fail
                 | _ => destruct (is_origin_on_an_isb_axis b) eqn:?
                 end
             | |- context [is_origin_on_an_isb_axis ?b] =>
                 destruct (is_origin_on_an_isb_axis b) eqn:?
             end;
      simpl in *; try discriminate;
      repeat match goal with
             | Hx : Segment_eqb _ _ = _ |- _ => rewrite Hx in *
             end;
      simpl in *;
      repeat split; first [assumption | reflexivity]
  end.

Ltac frame_block pm cm :=
  lazymatch goal with
  | Hinv : frame_inv ?rd _ _ ?s |- _ =>
      apply wp_seq with (I := frame_inv rd pm cm);
      [ repeat (wp_step; intros); frame_solve
      | clear Hinv; clear s; intros ? s Hinv ]
  end.

Ltac frame_read :=
  cbv beta zeta; apply wp_bind; apply wp_deref;
  let q := fresh "q" in
  let Hq := fresh "Hq" in
  intros q Hq;
  lazymatch goal with
  | Hinv : frame_inv _ _ _ _ |- _ =>
      let Hsame := fresh "Hsame" in
      pose proof (proj1 Hinv) as Hsame;
      unfold same_outside_validation in Hsame;
      decompose [and] Hsame; clear Hsame;
      match goal with
      | Hx : parent_biomech_sys ?s = _, Hy : parent_biomech_sys ?s = Some q |- _ =>
          rewrite Hx in Hy
      | Hx : child_biomech_sys ?s = _, Hy : child_biomech_sys ?s = Some q |- _ =>
          rewrite Hx in Hy
      end;
      repeat match goal with
             | Hx : _ ?s = _ ?r, Hi : frame_inv ?r _ _ ?s |- _ => clear Hx
             end;
      try match goal with
          | H1 : ?t = Some ?a, H2 : ?t = Some q |- _ =>
              tryif constr_eq a q then fail
              else (rewrite H1 in H2; injection H2 as H2; subst q)
          end
  end.

Lemma wp_validation_frame (rd : RowData B J) :
  wp check_segments_correction_validity (fun _ rd' => validation_frame rd rd') rd.
Proof.
  unfold check_segments_correction_validity, parent_sys, child_sys.
  wp_step. wp_step. wp_step.
  apply wp_extract_corrections. intros pc.
  wp_step. wp_step. wp_step.
  apply wp_extract_corrections. intros cc.
  assert (Hinv : frame_inv rd false false rd).
  { unfold frame_inv, same_outside_validation. repeat split; reflexivity. }
  lazymatch goal with
  | |- wp ?c ?Q rd =>
      enough (Hgen : forall s, frame_inv rd false false s -> wp c Q s)
        by (apply Hgen; exact Hinv)
  end.
  clear Hinv. intros s Hinv.
  frame_read.
  frame_block false false.
  frame_block false false.
  frame_read.
  frame_block false false.
  frame_read.
  frame_block false false.
  frame_read.
  frame_block (risk_passed 2 q (parent_segment rd)) false.
  frame_read.
  frame_block (risk_passed 2 q (parent_segment rd))
              (risk_passed 2 q0 (child_segment rd)).
  frame_read.
  frame_block (risk_passed 3 q (parent_segment rd))
              (risk_passed 2 q0 (child_segment rd)).
  frame_read.
  frame_block (risk_passed 3 q (parent_segment rd))
              (risk_passed 3 q0 (child_segment rd)).
  frame_read.
  frame_block (risk_passed 4 q (parent_segment rd))
              (risk_passed 3 q0 (child_segment rd)).
  frame_read.
  frame_block (risk_passed 4 q (parent_segment rd))
              (risk_passed 4 q0 (child_segment rd)).
  destruct Hinv as (Hsame & Hpr & Hcr).
  repeat wp_step.
  unfold validation_frame, same_outside_validation, risk_passed in *. simpl.
  split; [exact Hsame |].
  exists q, q0. repeat split; assumption.
Qed.

(** X15. A returning run of [check_segments_correction_validity] assigns
    nothing but the usability flags and the two definition-risk flags: the
    row, the joint, the segments and their coordinate systems, the
    [has_..._data] and [..._data_risk] attributes and both callbacks are
    unchanged.  A side is marked at risk exactly when its origin is off the
    ISB axes and it is not an ISB-oriented scapula; otherwise its risk flag
    keeps the value it had. *)
Theorem validation_assigns_flags_only
    (rd rd' : RowData B J) (r : option bool * option bool) :
  check_segments_correction_validity rd = (Returns r, rd') ->
  validation_frame rd rd'.
Proof.
  intros Hrun.
  pose proof (wp_validation_frame rd) as W. unfold wp in W. rewrite Hrun in W.
  exact W.
Qed.

(** X16. Translation data is never usable: on every returning run the
    translation flag of each side and [usable_translation_data] are [False],
    and the second component of the result is [False], also when both sides
    are fully ISB and declare no correction. *)
Theorem translation_never_usable
    (rd rd' : RowData B J) (r : option bool * option bool) :
  check_segments_correction_validity rd = (Returns r, rd') ->
  parent_segment_usable_for_translation_data rd' = Some false /\
  child_segment_usable_for_translation_data rd' = Some false /\
  usable_translation_data rd' = Some false /\
  snd r = Some false.
Proof.
  intros Hrun. apply check_segments_correction_validity_returns in Hrun.
  destruct Hrun as (pr & cr & _ & _ & Hpt & Hct & _ & Htrans & ->).
  repeat split; assumption.
Qed.

(** X17. [extract_corrections] returns [None] exactly for a NaN cell; a
    number that is not NaN is returned as it is; a string other than ["nan"]
    gives one tag per comma-separated item, never an empty list, whatever
    its spaces; the string ["nan"] and a [None] cell raise [TypeError]; and
    in no case is [self] modified. *)
Theorem extract_corrections_outcomes (segment : Segment) (rd : RowData B J) :
  snd (extract_corrections segment rd) = rd /\
  match correction_cell (row rd) segment with
  | CellNumber true => fst (extract_corrections segment rd) = Returns NoCorrection
  | CellNumber false => fst (extract_corrections segment rd) = Returns RawNumber
  | CellNone => fst (extract_corrections segment rd) = Raises TypeError
  | CellStr s =>
      if (s =? "nan")%string
      then fst (extract_corrections segment rd) = Raises TypeError
      else
        (exists e, fst (extract_corrections segment rd) = Raises e) \/
        exists l,
          fst (extract_corrections segment rd) = Returns (CorrectionList l) /\
          l <> [] /\
          List.length l = List.length (split "," (remove_spaces s))
  end.
Proof.
  split; [apply extract_corrections_state |].
  unfold extract_corrections, mbind, attr, call, ret, raise. simpl.
  destruct (correction_cell (row rd) segment) as [str|[|]|]; simpl; try reflexivity.
  destruct (str =? "nan")%string; simpl; [reflexivity |].
  assert (Hne : split "," (remove_spaces str) <> []).
  { destruct (remove_spaces str) as [|ch rest]; simpl; [discriminate |].
    destruct (Ascii.eqb ch ","); [discriminate |].
    destruct (split "," rest); discriminate. }
  revert Hne. generalize (split "," (remove_spaces str)) as items.
  intros items Hne.
  assert (Hmap : forall xs,
            (exists e, map_in_place correction_str_to_enum xs = Raises e) \/
            exists l, map_in_place correction_str_to_enum xs = Returns l /\
                      List.length l = List.length xs).
  { induction xs as [|x xs IH]; simpl.
    - right. exists []. split; reflexivity.
    - destruct (correction_str_to_enum x) as [c|e]; simpl;
        [|left; eexists; reflexivity].
      destruct IH as [[e ->]|(l & -> & Hlen)]; simpl.
      + left. eexists. reflexivity.
      + right. exists (c :: l). split; [reflexivity | simpl; now rewrite Hlen]. }
  destruct (Hmap items) as [[e ->]|(l & -> & Hlen)]; simpl.
  - left. eexists. reflexivity.
  - right. exists l. repeat split; [|exact Hlen].
    intros ->. destruct items; [congruence | discriminate].
Qed.

End Validation.

Section Callback.
Context {B J : Type} `{Utils B J}.

(** Whatever its outcome, [set_rotation_correction_callback] assigns no
    attribute other than [usable_rotation_data] and
    [rotation_correction_callback]. *)
Lemma set_rotation_correction_callback_frame
    (rd rd' : RowData B J) (o : outcome unit) :
  set_rotation_correction_callback rd = (o, rd') ->
  same_outside_rotation_result rd rd'.
Proof.
  unfold set_rotation_correction_callback, parent_sys, child_sys.
  unfold mbind, attr, assign, ret, raise, call, deref.
  destruct rd; simpl.
  repeat match goal with
         | |- context [match ?x with _ => _ end] =>
             lazymatch x with
             | context [match _ with _ => _ end] => fail
             | _ => destruct x; simpl
             end
         end;
    intros Hrun; injection Hrun as <- <-;
    unfold same_outside_rotation_result; simpl; repeat split; reflexivity.
Qed.

(** On return, [usable_rotation_data] is [True] and a callback is stored. *)
Lemma set_rotation_correction_callback_returns (rd rd' : RowData B J) :
  set_rotation_correction_callback rd = (Returns tt, rd') ->
  usable_rotation_data rd' = Some true /\
  exists cb, rotation_correction_callback rd' = Some cb.
Proof.
  unfold set_rotation_correction_callback, parent_sys, child_sys.
  unfold mbind, attr, assign, ret, raise, call, deref.
  destruct rd; simpl.
  repeat match goal with
         | |- context [match ?x with _ => _ end] =>
             lazymatch x with
             | context [match _ with _ => _ end] => fail
             | _ => destruct x; simpl
             end
         end;
    intros Hrun; try discriminate; injection Hrun as <-;
    simpl; split; try reflexivity; eexists; reflexivity.
Qed.

(** C1. When at least one of the two coordinate systems is not
    ISB-oriented and [check_same_orientation] fails,
    [set_rotation_correction_callback] raises [NotImplementedError]; it
    returns nothing, and what it leaves in the row is no callback ([None])
    and [usable_rotation_data = False]. *)
Theorem mismatched_orientation_raises (rd : RowData B J) (p c : B) :
  parent_biomech_sys rd = Some p ->
  child_biomech_sys rd = Some c ->
  is_isb_oriented p = false \/ is_isb_oriented c = false ->
  check_same_orientation p c = false ->
  set_rotation_correction_callback rd =
    (Raises NotImplementedError,
     with_rotation_correction_callback None (with_usable_rotation_data (Some false) rd))
  /\ rotation_correction_callback (snd (set_rotation_correction_callback rd)) = None
  /\ usable_rotation_data (snd (set_rotation_correction_callback rd)) = Some false.
Proof.
  intros Hp Hc Hnot Hsame.
  assert (Hrun :
    set_rotation_correction_callback rd =
      (Raises NotImplementedError,
       with_rotation_correction_callback None
         (with_usable_rotation_data (Some false) rd))).
  { unfold set_rotation_correction_callback, parent_sys, child_sys.
    unfold mbind, attr, assign, ret, raise, call, deref.
    rewrite Hp, Hc.
    destruct Hnot as [Hnot|Hnot]; rewrite Hnot.
    - simpl. rewrite Hp, Hc, Hsame. reflexivity.
    - destruct (is_isb_oriented p); simpl; rewrite Hp, Hc, Hsame; reflexivity. }
  rewrite Hrun. repeat split; reflexivity.
Qed.

(** C6. When both coordinate systems are ISB-oriented and the declared
    Euler sequence of the joint is the canonical ISB sequence,
    [set_rotation_correction_callback] returns and stores the sign-factor
    callback built from [(1, 1, 1)]; that callback maps every angle triple
    to itself. *)
Theorem canonical_sequence_identity_callback (rd : RowData B J) (p c : B) (j : J) :
  parent_biomech_sys rd = Some p ->
  child_biomech_sys rd = Some c ->
  joint rd = Some j ->
  is_isb_oriented p = true ->
  is_isb_oriented c = true ->
  euler_sequence j = Some (isb_euler_sequence j) ->
  set_rotation_correction_callback rd =
    (Returns tt,
     with_rotation_correction_callback
       (Some (get_angle_conversion_callback_from_tuple (1, 1, 1)%Z))
       (with_usable_rotation_data (Some true) rd))
  /\ rotation_correction_callback (snd (set_rotation_correction_callback rd))
     = Some (get_angle_conversion_callback_from_tuple (1, 1, 1)%Z)
  /\ forall angles : R * R * R, apply_sign_factors (1, 1, 1)%Z angles = angles.
Proof.
  intros Hp Hc Hj Hpo Hco Hseq.
  assert (Hrun :
    set_rotation_correction_callback rd =
      (Returns tt,
       with_rotation_correction_callback
         (Some (get_angle_conversion_callback_from_tuple (1, 1, 1)%Z))
         (with_usable_rotation_data (Some true) rd))).
  { unfold set_rotation_correction_callback, parent_sys, child_sys.
    unfold mbind, attr, assign, ret, raise, call, deref.
    rewrite Hp, Hc, Hpo, Hco. simpl. rewrite Hj.
    unfold is_joint_sequence_isb. rewrite Hseq, String.eqb_refl. reflexivity. }
  rewrite Hrun. repeat split.
  intros [[rot1 rot2] rot3]. unfold apply_sign_factors.
  rewrite !Rmult_1_r. reflexivity.
Qed.

(** C10. A call of [set_rotation_correction_callback] that returns changes
    no attribute of the row other than [usable_rotation_data] and
    [rotation_correction_callback]; it leaves [usable_rotation_data = True],
    whatever its value before the call, and a callback stored. *)
Theorem set_rotation_correction_callback_writes_two_attributes (rd rd' : RowData B J) :
  set_rotation_correction_callback rd = (Returns tt, rd') ->
  same_outside_rotation_result rd rd' /\
  usable_rotation_data rd' = Some true /\
  exists cb, rotation_correction_callback rd' = Some cb.
Proof.
  intros Hrun. split.
  - exact (set_rotation_correction_callback_frame _ Hrun).
  - exact (set_rotation_correction_callback_returns _ Hrun).
Qed.

(** C4 (amended). When [check_segments_correction_validity] returns, the
    four per-side flags are booleans, [usable_rotation_data] is the
    conjunction of the two rotation flags, [usable_translation_data] is the
    conjunction of the two translation flags, and the pair returned is these
    two values.  A later [set_rotation_correction_callback] leaves the
    per-side flags and [usable_translation_data] as they are, but it assigns
    [usable_rotation_data] again: [True] whenever it returns. *)
Theorem usable_flags_are_conjunctions_until_callback
    (rd rd1 : RowData B J) (r : option bool * option bool) :
  check_segments_correction_validity rd = (Returns r, rd1) ->
  exists parent_rotation child_rotation parent_translation child_translation : bool,
    parent_segment_usable_for_rotation_data rd1 = Some parent_rotation /\
    child_segment_usable_for_rotation_data rd1 = Some child_rotation /\
    parent_segment_usable_for_translation_data rd1 = Some parent_translation /\
    child_segment_usable_for_translation_data rd1 = Some child_translation /\
    usable_rotation_data rd1 = Some (child_rotation && parent_rotation) /\
    usable_translation_data rd1 = Some (child_translation && parent_translation) /\
    r = (usable_rotation_data rd1, usable_translation_data rd1) /\
    forall (o : outcome unit) (rd2 : RowData B J),
      set_rotation_correction_callback rd1 = (o, rd2) ->
      parent_segment_usable_for_rotation_data rd2 = Some parent_rotation /\
      child_segment_usable_for_rotation_data rd2 = Some child_rotation /\
      parent_segment_usable_for_translation_data rd2 = Some parent_translation /\
      child_segment_usable_for_translation_data rd2 = Some child_translation /\
      usable_translation_data rd2 = Some (child_translation && parent_translation) /\
      (o = Returns tt -> usable_rotation_data rd2 = Some true).
Proof.
  intros Hrun.
  apply check_segments_correction_validity_returns in Hrun.
  destruct Hrun as (pr & cr & Hpr & Hcr & Hpt & Hct & Hrot & Htrans & Hr).
  exists pr, cr, false, false.
  rewrite Hrot, Htrans.
  do 7 (split; [first [assumption | reflexivity] |]).
  intros o rd2 Hcallback.
  pose proof (set_rotation_correction_callback_frame _ Hcallback) as Hframe.
  unfold same_outside_rotation_result in Hframe.
  split; [|split; [|split; [|split; [|split]]]];
    try (simpl; decompose [and] Hframe; congruence).
  intros ->.
  exact (proj1 (set_rotation_correction_callback_returns _ Hcallback)).
Qed.

(** *** Outcomes of the callback resolution *)

Ltac run_callback :=
  unfold set_rotation_correction_callback, parent_sys, child_sys;
  unfold mbind, attr, assign, ret, raise, call, deref; simpl;
  repeat match goal with
         | |- context [match ?x with _ => _ end] =>
             lazymatch x with
             | context [match _ with _ => _ end] => fail
             | _ => destruct x eqn:?; simpl
             end
         end.

Ltac absurd_case :=
  repeat match goal with
         | Hx : context [is_isb_oriented ?b] |- _ =>
             lazymatch type of Hx with
             | is_isb_oriented b = _ => fail
             | _ => destruct (is_isb_oriented b)
             end
         end;
  simpl in *; discriminate.

Ltac close_case :=
  repeat match goal with
         | Hx : (_, _) = (_, _) |- _ => injection Hx as ? ?; subst
         end;
  first [reflexivity | congruence | absurd_case].

(** X18. The outcome of [set_rotation_correction_callback]: it returns
    when both sides are ISB-oriented or have the same orientation, provided
    the joint is set; it raises [NotImplementedError] exactly when the two
    coordinate systems are set, not both ISB-oriented, and
    [check_same_orientation] fails, so the last [else] branch is never
    taken; it raises [AttributeError] when a coordinate system, or the joint
    it needs, is still [None]. *)
Theorem set_rotation_correction_callback_outcome (rd : RowData B J) :
  fst (set_rotation_correction_callback rd) =
    match parent_biomech_sys rd, child_biomech_sys rd with
    | Some p, Some c =>
        if is_isb_oriented p && is_isb_oriented c || check_same_orientation p c
        then match joint rd with
             | Some _ => Returns tt
             | None => Raises AttributeError
             end
        else Raises NotImplementedError
    | _, _ => Raises AttributeError
    end.
Proof.
  destruct rd. run_callback; close_case.
Qed.

(** X19. Resolving the callback twice is the same as resolving it once:
    the second call has the outcome of the first and leaves the row as the
    first left it. *)
Theorem set_rotation_correction_callback_idempotent (rd : RowData B J) :
  set_rotation_correction_callback (snd (set_rotation_correction_callback rd))
  = set_rotation_correction_callback rd.
Proof.
  destruct rd. run_callback; close_case.
Qed.

(** X20. The callback resolution looks at the two coordinate systems and
    at the joint only: two rows that agree on them get the same outcome and,
    unless that outcome is [AttributeError], the same
    [usable_rotation_data] and the same callback, whatever the flags the
    validation left. *)
Theorem set_rotation_correction_callback_ignores_flags (rd1 rd2 : RowData B J) :
  parent_biomech_sys rd1 = parent_biomech_sys rd2 ->
  child_biomech_sys rd1 = child_biomech_sys rd2 ->
  joint rd1 = joint rd2 ->
  fst (set_rotation_correction_callback rd1) = fst (set_rotation_correction_callback rd2)
  /\ (fst (set_rotation_correction_callback rd1) <> Raises AttributeError ->
      usable_rotation_data (snd (set_rotation_correction_callback rd1))
      = usable_rotation_data (snd (set_rotation_correction_callback rd2))
      /\ rotation_correction_callback (snd (set_rotation_correction_callback rd1))
         = rotation_correction_callback (snd (set_rotation_correction_callback rd2))).
Proof.
  destruct rd1, rd2. simpl. intros -> -> ->.
  run_callback;
    repeat match goal with
           | Hx : (_, _) = (_, _) |- _ => injection Hx as ? ?; subst
           end;
    try congruence; try absurd_case;
    (split; [reflexivity |]); intros Hne;
    first [ split; reflexivity | exfalso; apply Hne; reflexivity ].
Qed.

End Callback.

(** *** Concrete runs *)

Section Runs.
Import Sample.

(** C3 fails on the code: a scapula child that is ISB-oriented with its
    origin off the ISB axes and no Kolz correction is marked usable for
    rotation.  The Kolz check does answer [False], but its result is stored
    in [parent_output] and the flag of the child is set from
    [child_output], still [True].  The same scapula taken as parent is
    marked unusable. *)
Lemma scapula_child_without_kolz_marked_usable :
  _check_segment_has_kolz_correction NoCorrection = Returns false
  /\ fst (check_segments_correction_validity scapula_child_row)
     = Returns (Some true, Some false)
  /\ child_segment_usable_for_rotation_data
       (snd (check_segments_correction_validity scapula_child_row)) = Some true
  /\ parent_segment_usable_for_rotation_data
       (snd (check_segments_correction_validity scapula_parent_row)) = Some false.
Proof. repeat split; vm_compute; reflexivity. Qed.

(** C4, as stated, fails: on a row whose thorax declares a correction it
    should not, the conjunction of the per-side flags is [False], and the
    resolution of the callback then sets [usable_rotation_data] to [True]. *)
Lemma callback_resolution_overwrites_usable_rotation_data :
  let validated_row := snd (check_segments_correction_validity overcorrected_row) in
  let final_row := snd (set_rotation_correction_callback validated_row) in
  fst (check_segments_correction_validity overcorrected_row)
    = Returns (Some false, Some false)
  /\ fst (set_rotation_correction_callback validated_row) = Returns tt
  /\ parent_segment_usable_for_rotation_data final_row = Some false
  /\ child_segment_usable_for_rotation_data final_row = Some true
  /\ usable_rotation_data final_row = Some true.
Proof. repeat split; vm_compute; reflexivity. Qed.

Lemma mismatched_orientation_raises_witness :
  check_same_orientation (rotated_sys 0) (rotated_sys 1) = false
  /\ set_rotation_correction_callback mismatched_row =
       (Raises NotImplementedError,
        with_rotation_correction_callback None
          (with_usable_rotation_data (Some false) mismatched_row))
  /\ rotation_correction_callback (snd (set_rotation_correction_callback mismatched_row))
     = None
  /\ usable_rotation_data (snd (set_rotation_correction_callback mismatched_row))
     = Some false.
Proof.
  split; [reflexivity |].
  apply (mismatched_orientation_raises mismatched_row (p:=rotated_sys 0) (c:=rotated_sys 1));
    try reflexivity.
  left. reflexivity.
Defined.

Lemma usable_translation_only_when_fully_isb_witness :
  let run := check_segments_correction_validity shifted_origin_row in
  fst run = Returns (Some true, Some false)
  /\ origin_deviates shifted_origin_row
  /\ (usable_translation_data (snd run) = Some true ->
      fully_isb_without_correction shifted_origin_row)
  /\ (origin_deviates shifted_origin_row ->
      usable_translation_data (snd run) = Some false).
Proof.
  split; [vm_compute; reflexivity |].
  split.
  - exists isb_oriented_on_axis_sys. split; [left |]; reflexivity.
  - apply (usable_translation_only_when_fully_isb shifted_origin_row
             (r:=(Some true, Some false))).
    vm_compute. reflexivity.
Defined.

Lemma usable_flags_are_conjunctions_until_callback_witness :
  let rd1 := snd (check_segments_correction_validity overcorrected_row) in
  exists parent_rotation child_rotation parent_translation child_translation : bool,
    parent_segment_usable_for_rotation_data rd1 = Some parent_rotation /\
    child_segment_usable_for_rotation_data rd1 = Some child_rotation /\
    parent_segment_usable_for_translation_data rd1 = Some parent_translation /\
    child_segment_usable_for_translation_data rd1 = Some child_translation /\
    usable_rotation_data rd1 = Some (child_rotation && parent_rotation) /\
    usable_translation_data rd1 = Some (child_translation && parent_translation) /\
    (Some false, Some false) = (usable_rotation_data rd1, usable_translation_data rd1) /\
    forall (o : outcome unit) (rd2 : RowData Sys Joint),
      set_rotation_correction_callback rd1 = (o, rd2) ->
      parent_segment_usable_for_rotation_data rd2 = Some parent_rotation /\
      child_segment_usable_for_rotation_data rd2 = Some child_rotation /\
      parent_segment_usable_for_translation_data rd2 = Some parent_translation /\
      child_segment_usable_for_translation_data rd2 = Some child_translation /\
      usable_translation_data rd2 = Some (child_translation && parent_translation) /\
      (o = Returns tt -> usable_rotation_data rd2 = Some true).
Proof.
  apply (usable_flags_are_conjunctions_until_callback overcorrected_row).
  vm_compute. reflexivity.
Defined.

Lemma canonical_sequence_identity_callback_witness :
  set_rotation_correction_callback isb_row =
    (Returns tt,
     with_rotation_correction_callback
       (Some (get_angle_conversion_callback_from_tuple (1, 1, 1)%Z))
       (with_usable_rotation_data (Some true) isb_row))
  /\ rotation_correction_callback (snd (set_rotation_correction_callback isb_row))
     = Some (get_angle_conversion_callback_from_tuple (1, 1, 1)%Z)
  /\ forall angles : R * R * R, apply_sign_factors (1, 1, 1)%Z angles = angles.
Proof.
  apply (canonical_sequence_identity_callback isb_row
           (p:=isb_sys) (c:=isb_sys) (j:=canonical_joint));
    reflexivity.
Defined.

Lemma set_rotation_correction_callback_writes_two_attributes_witness :
  let rd' := snd (set_rotation_correction_callback matched_row) in
  fst (set_rotation_correction_callback matched_row) = Returns tt
  /\ same_outside_rotation_result matched_row rd'
  /\ usable_rotation_data rd' = Some true
  /\ exists cb, rotation_correction_callback rd' = Some cb.
Proof.
  split; [vm_compute; reflexivity |].
  apply (set_rotation_correction_callback_writes_two_attributes matched_row).
  vm_compute. reflexivity.
Defined.

Lemma rotation_verdict_follows_rules_witness :
  fst (check_segments_correction_validity scapula_kolz_row)
    = Returns (Some true, Some false)
  /\ _check_segment_has_to_isb_correction
       (CorrectionList [SCAPULA_KOLZ_AC_TO_PA_ROTATION]) = Returns false
  /\ rotation_decided scapula_kolz_row (Some true, Some false)
       (snd (check_segments_correction_validity scapula_kolz_row)).
Proof.
  split; [vm_compute; reflexivity |]. split; [reflexivity |].
  apply (rotation_verdict_follows_rules scapula_kolz_row).
  vm_compute. reflexivity.
Defined.

Lemma validation_assigns_flags_only_witness :
  validation_frame scapula_child_row
    (snd (check_segments_correction_validity scapula_child_row)).
Proof.
  apply (validation_assigns_flags_only scapula_child_row (r:=(Some true, Some false))).
  vm_compute. reflexivity.
Defined.

Lemma translation_never_usable_witness :
  fully_isb_without_correction isb_row
  /\ parent_segment_usable_for_translation_data
       (snd (check_segments_correction_validity isb_row)) = Some false
  /\ child_segment_usable_for_translation_data
       (snd (check_segments_correction_validity isb_row)) = Some false
  /\ usable_translation_data (snd (check_segments_correction_validity isb_row))
     = Some false
  /\ snd (Some true, Some false) = Some false.
Proof.
  split.
  - exists isb_sys, isb_sys. repeat split; reflexivity.
  - apply (translation_never_usable isb_row (r:=(Some true, Some false))).
    vm_compute. reflexivity.
Defined.

Lemma set_rotation_correction_callback_ignores_flags_witness :
  let validated_row := snd (check_segments_correction_validity overcorrected_row) in
  usable_rotation_data validated_row = Some false
  /\ fst (set_rotation_correction_callback isb_row)
     = fst (set_rotation_correction_callback validated_row)
  /\ (fst (set_rotation_correction_callback isb_row) <> Raises AttributeError ->
      usable_rotation_data (snd (set_rotation_correction_callback isb_row))
      = usable_rotation_data (snd (set_rotation_correction_callback validated_row))
      /\ rotation_correction_callback (snd (set_rotation_correction_callback isb_row))
         = rotation_correction_callback
             (snd (set_rotation_correction_callback validated_row))).
Proof.
  split; [vm_compute; reflexivity |].
  apply (set_rotation_correction_callback_ignores_flags isb_row
           (snd (check_segments_correction_validity overcorrected_row)));
    vm_compute; reflexivity.
Defined.

End Runs.

End ShoulderProps.

(** ** Python string operations *)

Module PyFacts.

Local Open Scope string_scope.

Lemma prefix_empty (s : string) : String.prefix "" s = true.
Proof. destruct s; reflexivity. Qed.

Lemma prefix_cons (c d : ascii) (p s : string) :
  String.prefix (String c p) (String d s) = Ascii.eqb c d && String.prefix p s.
Proof.
  simpl. destruct (ascii_dec c d) as [->|Hne].
  - now rewrite Ascii.eqb_refl.
  - apply Ascii.eqb_neq in Hne. now rewrite Hne.
Qed.

Lemma length_append (a b : string) :
  String.length (a ++ b) = String.length a + String.length b.
Proof. induction a as [|c a IH]; simpl; [reflexivity | now rewrite IH]. Qed.

Lemma append_empty_r (a : string) : a ++ "" = a.
Proof. induction a as [|c a IH]; simpl; [reflexivity | now rewrite IH]. Qed.

Lemma append_assoc (a b c : string) : (a ++ b) ++ c = a ++ (b ++ c).
Proof. induction a as [|x a IH]; simpl; [reflexivity | now rewrite IH]. Qed.

Lemma substring_0_append (m t : string) :
  String.substring 0 (String.length m) (m ++ t) = m.
Proof.
  induction m as [|c m IH]; simpl.
  - destruct t; reflexivity.
  - now rewrite IH.
Qed.

(** *** Membership of a character *)

Lemma str_in_char_cons (c d : ascii) (s : string) :
  str_in (String c "") (String d s) = Ascii.eqb c d || str_in (String c "") s.
Proof.
  simpl. destruct (ascii_dec c d) as [->|Hne].
  - now rewrite Ascii.eqb_refl, prefix_empty.
  - apply Ascii.eqb_neq in Hne. now rewrite Hne.
Qed.

Lemma str_in_char_empty (c : ascii) : str_in (String c "") "" = false.
Proof. reflexivity. Qed.

Lemma str_in_char_append (c : ascii) (a b : string) :
  str_in (String c "") (a ++ b) = str_in (String c "") a || str_in (String c "") b.
Proof.
  induction a as [|d a IH].
  - reflexivity.
  - change (String d a ++ b) with (String d (a ++ b)).
    rewrite !str_in_char_cons, IH. now rewrite orb_assoc.
Qed.

(** A pattern can only occur where its first character does. *)
Lemma str_in_first_char (c : ascii) (sub s : string) :
  str_in (String c sub) s = true -> str_in (String c "") s = true.
Proof.
  induction s as [|d s IH]; intros Hin.
  - discriminate.
  - rewrite str_in_char_cons. simpl in Hin.
    destruct (ascii_dec c d) as [->|Hne].
    + now rewrite Ascii.eqb_refl.
    + simpl in Hin. rewrite (IH Hin). apply orb_true_r.
Qed.

Lemma str_in_absent (c : ascii) (sub s : string) :
  str_in (String c "") s = false -> str_in (String c sub) s = false.
Proof.
  intros Habs. destruct (str_in (String c sub) s) eqn:Hin; [|reflexivity].
  apply str_in_first_char in Hin. congruence.
Qed.

(** ... nor where its second character does not. *)
Lemma str_in_second_char (c d : ascii) (sub s : string) :
  str_in (String c (String d sub)) s = true -> str_in (String d "") s = true.
Proof.
  induction s as [|x s IH]; intros Hin.
  - discriminate.
  - rewrite str_in_char_cons.
    change (str_in (String c (String d sub)) (String x s))
      with (String.prefix (String c (String d sub)) (String x s)
            || str_in (String c (String d sub)) s) in Hin.
    apply orb_true_iff in Hin. destruct Hin as [Hp|Hin].
    + rewrite prefix_cons in Hp. apply andb_true_iff in Hp. destruct Hp as [_ Hp].
      destruct s as [|y s]; [discriminate |].
      rewrite prefix_cons in Hp. apply andb_true_iff in Hp. destruct Hp as [Hd _].
      rewrite str_in_char_cons, Hd. simpl. apply orb_true_r.
    + rewrite (IH Hin). apply orb_true_r.
Qed.

Lemma str_in_absent_second (c d : ascii) (sub s : string) :
  str_in (String d "") s = false -> str_in (String c (String d sub)) s = false.
Proof.
  intros Habs. destruct (str_in (String c (String d sub)) s) eqn:Hin; [|reflexivity].
  apply str_in_second_char in Hin. congruence.
Qed.

(** *** [split] *)

Lemma split_not_empty (sep : ascii) (s : string) : split sep s <> [].
Proof.
  destruct s as [|c s]; simpl; [discriminate |].
  destruct (Ascii.eqb c sep); [discriminate |].
  destruct (split sep s); discriminate.
Qed.

Lemma split_without_sep (sep : ascii) (s : string) :
  str_in (String sep "") s = false -> split sep s = [s].
Proof.
  induction s as [|c s IH]; intros Habs.
  - reflexivity.
  - rewrite str_in_char_cons in Habs. apply orb_false_iff in Habs.
    destruct Habs as [Hc Hs]. simpl.
    rewrite Ascii.eqb_sym, Hc, (IH Hs). reflexivity.
Qed.

Lemma split_append_sep (sep : ascii) (a b : string) :
  str_in (String sep "") a = false ->
  split sep (a ++ String sep b) = a :: split sep b.
Proof.
  induction a as [|c a IH]; intros Habs.
  - simpl. now rewrite Ascii.eqb_refl.
  - rewrite str_in_char_cons in Habs. apply orb_false_iff in Habs.
    destruct Habs as [Hc Ha].
    change (String c a ++ String sep b) with (String c (a ++ String sep b)).
    simpl. rewrite Ascii.eqb_sym, Hc, (IH Ha). reflexivity.
Qed.

(** A string that holds the separator splits into at least two items. *)
Lemma split_with_sep (sep : ascii) (s : string) :
  str_in (String sep "") s = true ->
  exists a b rest, split sep s = a :: b :: rest /\ str_in (String sep "") a = false.
Proof.
  induction s as [|c s IH]; intros Hin.
  - discriminate.
  - rewrite str_in_char_cons in Hin. simpl.
    destruct (Ascii.eqb c sep) eqn:Hc.
    + destruct (split sep s) as [|b rest] eqn:Hs.
      * now apply split_not_empty in Hs.
      * exists "", b, rest. split; reflexivity.
    + rewrite Ascii.eqb_sym, Hc in Hin. simpl in Hin.
      destruct (IH Hin) as (a & b & rest & -> & Ha).
      exists (String c a), b, rest. split; [reflexivity |].
      rewrite str_in_char_cons, Ascii.eqb_sym, Hc, Ha. reflexivity.
Qed.

(** *** [endswith] *)

Lemma list_ascii_of_string_append (a b : string) :
  list_ascii_of_string (a ++ b) = (list_ascii_of_string a ++ list_ascii_of_string b)%list.
Proof. induction a as [|c a IH]; simpl; [reflexivity | now rewrite IH]. Qed.

Lemma string_of_list_ascii_app (l1 l2 : list ascii) :
  string_of_list_ascii (l1 ++ l2) = string_of_list_ascii l1 ++ string_of_list_ascii l2.
Proof. induction l1 as [|c l1 IH]; simpl; [reflexivity | now rewrite IH]. Qed.

Lemma str_rev_append (a b : string) : str_rev (a ++ b) = str_rev b ++ str_rev a.
Proof.
  unfold str_rev. now rewrite list_ascii_of_string_append, rev_app_distr,
    string_of_list_ascii_app.
Qed.

Lemma str_rev_involutive (a : string) : str_rev (str_rev a) = a.
Proof.
  unfold str_rev.
  now rewrite list_ascii_of_string_of_list_ascii, rev_involutive,
    string_of_list_ascii_of_string.
Qed.

Lemma endswith_append_char (m : string) (c : ascii) :
  endswith (m ++ String c "") (String c "") = true.
Proof.
  unfold endswith. rewrite str_rev_append.
  change (str_rev (String c "")) with (String c "").
  simpl. destruct (ascii_dec c c) as [_|Hne]; [apply prefix_empty | congruence].
Qed.

Lemma endswith_char_inv (s : string) (c : ascii) :
  endswith s (String c "") = true -> exists m, s = m ++ String c "".
Proof.
  unfold endswith. change (str_rev (String c "")) with (String c "").
  intros Hp. pose proof (str_rev_involutive s) as Hinv.
  destruct (str_rev s) as [|d t]; [discriminate |].
  simpl in Hp. destruct (ascii_dec c d) as [->|]; [|discriminate].
  exists (str_rev t). rewrite <- Hinv.
  change (String d t) with (String d "" ++ t).
  rewrite str_rev_append. reflexivity.
Qed.

End PyFacts.

(** ** Frame reader: the parser and the frames it builds *)

Module FrameReaderMore.
Import FrameReader PyFacts.

Local Open Scope string_scope.

Section ParserFacts.
Context {L : Type} `{AnatomicalLandmarks L}.

Lemma startswith_inv (s p : string) :
  startswith s p = true -> exists r, s = p ++ r.
Proof.
  unfold startswith. revert s. induction p as [|c p IH]; intros s Hp.
  - exists s. reflexivity.
  - destruct s as [|d s]; [discriminate |]. simpl in Hp.
    destruct (ascii_dec c d) as [->|]; [|discriminate].
    destruct (IH s Hp) as [r ->]. exists r. reflexivity.
Qed.

Lemma slice_vec_token (m : string) : slice_4_m1 ("vec(" ++ m ++ ")") = m.
Proof.
  unfold slice_4_m1.
  replace (String.length ("vec(" ++ m ++ ")") - 5) with (String.length m).
  - simpl. apply substring_0_append.
  - simpl. rewrite length_append. simpl. lia.
Qed.

Lemma shape_vec_token (m : string) :
  startswith ("vec(" ++ m ++ ")") "vec(" = true /\
  endswith ("vec(" ++ m ++ ")") ")" = true /\
  str_in ">" ("vec(" ++ m ++ ")") = str_in ">" m.
Proof.
  split; [|split].
  - unfold startswith. simpl. apply prefix_empty.
  - rewrite <- append_assoc. apply endswith_append_char.
  - rewrite !str_in_char_append. simpl. now rewrite orb_false_r.
Qed.

(** A string that passes the shape test of [parse_start_end_vector] is
    ["vec(" ++ m ++ ")"] for some [m]. *)
Lemma shape_inv (input : string) :
  startswith input "vec(" = true -> endswith input ")" = true ->
  exists m, input = "vec(" ++ m ++ ")".
Proof.
  intros Hs He. destruct (startswith_inv _ _ Hs) as [r ->].
  assert (Hr : endswith r ")" = true).
  { unfold endswith in *. rewrite str_rev_append in He.
    change (str_rev ")") with ")" in *.
    destruct (str_rev r) as [|d t]; [discriminate He |].
    change (String d t ++ str_rev "vec(") with (String d (t ++ str_rev "vec(")) in He.
    rewrite prefix_cons in *. apply andb_true_iff in He.
    rewrite (proj1 He). apply prefix_empty. }
  destruct (endswith_char_inv _ _ Hr) as [m ->]. exists m. reflexivity.
Qed.

Lemma parse_start_end_vector_vec_token (a b : string) :
  str_in ">" a = false -> str_in ">" b = false ->
  parse_start_end_vector ("vec(" ++ a ++ ">" ++ b ++ ")") = Returns (a, b).
Proof.
  intros Ha Hb. unfold parse_start_end_vector.
  replace ("vec(" ++ a ++ ">" ++ b ++ ")") with ("vec(" ++ (a ++ ">" ++ b) ++ ")")
    by (now rewrite !append_assoc).
  destruct (shape_vec_token (a ++ ">" ++ b)) as (Hs & He & Hgt).
  rewrite Hs, He, Hgt, str_in_char_append, Ha.
  replace (str_in ">" (">" ++ b)) with true
    by (change (">" ++ b) with (String ">" b); now rewrite str_in_char_cons).
  cbn [negb orb]. rewrite slice_vec_token.
  change (a ++ ">" ++ b) with (a ++ String ">" b).
  rewrite (split_append_sep ">" a b Ha), (split_without_sep ">" b Hb).
  reflexivity.
Qed.

(** X1. [parse_start_end_vector] inverts the notation [vec(a>b)]: for
    names without [>], it returns the two names. *)
Theorem parse_start_end_vector_round_trip (a b : string) :
  str_in ">" a = false -> str_in ">" b = false ->
  parse_start_end_vector ("vec(" ++ a ++ ">" ++ b ++ ")") = Returns (a, b).
Proof. apply parse_start_end_vector_vec_token. Qed.

(** X2. [parse_start_end_vector] returns exactly on the strings that pass
    its shape test, and raises [ValueError] on the others: the indexing of
    the split list never goes out of range.  The first name returned holds
    no [>]. *)
Theorem parse_start_end_vector_outcomes (input : string) :
  (startswith input "vec(" && endswith input ")" && str_in ">" input = true ->
   exists a b, parse_start_end_vector input = Returns (a, b) /\ str_in ">" a = false)
  /\
  (startswith input "vec(" && endswith input ")" && str_in ">" input = false ->
   parse_start_end_vector input = Raises ValueError).
Proof.
  unfold parse_start_end_vector. split; intros Hshape.
  - apply andb_true_iff in Hshape. destruct Hshape as [Hshape Hgt].
    apply andb_true_iff in Hshape. destruct Hshape as [Hs He].
    rewrite Hs, He, Hgt. cbn [negb orb].
    destruct (shape_inv _ Hs He) as [m ->].
    rewrite slice_vec_token.
    destruct (shape_vec_token m) as (_ & _ & Hm). rewrite Hm in Hgt.
    destruct (split_with_sep ">" m Hgt) as (a & b & rest & -> & Ha).
    exists a, b. split; [reflexivity | exact Ha].
  - destruct (startswith input "vec("); simpl in *; [|reflexivity].
    destruct (endswith input ")"); simpl in *; [|reflexivity].
    rewrite Hshape. reflexivity.
Qed.

(** Names that hold neither [>] nor [^]. *)
#[local] Abbreviation plain s := (str_in ">" s || str_in "^" s = false).

Lemma caret_vec_token (a b : string) :
  plain a -> plain b -> str_in "^" ("vec(" ++ a ++ ">" ++ b ++ ")") = false.
Proof.
  intros Ha Hb. apply orb_false_iff in Ha, Hb.
  rewrite !str_in_char_append, (proj2 Ha), (proj2 Hb). reflexivity.
Qed.

Lemma parse_vector_token (a b : string) (la lb : L) :
  plain a -> plain b ->
  from_string a = Returns la -> from_string b = Returns lb ->
  parse_vector ("vec(" ++ a ++ ">" ++ b ++ ")") = Returns (StartEndVector la lb).
Proof.
  intros Ha Hb Hla Hlb. apply orb_false_iff in Ha, Hb.
  unfold parse_vector.
  rewrite (parse_start_end_vector_vec_token a b (proj1 Ha) (proj1 Hb)).
  unfold StartEndVector_from_strings. simpl. rewrite Hla. simpl. rewrite Hlb.
  reflexivity.
Qed.

Lemma parse_axis_vec_tokens (a b c d : string) (la lb lc ld : L) :
  plain a -> plain b -> plain c -> plain d ->
  from_string a = Returns la -> from_string b = Returns lb ->
  from_string c = Returns lc -> from_string d = Returns ld ->
  let ab := "vec(" ++ a ++ ">" ++ b ++ ")" in
  let cd := "vec(" ++ c ++ ">" ++ d ++ ")" in
  parse_axis ab "all" = Returns (StartEndVector la lb)
  /\ parse_axis (ab ++ "^" ++ cd) "all"
     = Returns (CrossedVector (StartEndVector la lb) (StartEndVector lc ld))
  /\ parse_axis (ab ++ "^" ++ cd) "first" = Returns (StartEndVector la lb)
  /\ parse_axis (ab ++ "^" ++ cd) "second" = Returns (StartEndVector lc ld)
  /\ parse_axis ab "first" = Raises ValueError
  /\ parse_axis ab "second" = Raises ValueError.
Proof.
  intros Ha Hb Hc Hd Hla Hlb Hlc Hld ab cd.
  pose proof (caret_vec_token a b Ha Hb) as Hab.
  pose proof (caret_vec_token c d Hc Hd) as Hcd.
  pose proof (parse_vector_token a b Ha Hb Hla Hlb) as Pab.
  pose proof (parse_vector_token c d Hc Hd Hlc Hld) as Pcd.
  fold ab in Hab, Pab. fold cd in Hcd, Pcd.
  assert (Hcross : str_in "^" (ab ++ "^" ++ cd) = true).
  { rewrite str_in_char_append, Hab.
    change ("^" ++ cd) with (String "^" cd). now rewrite str_in_char_cons. }
  assert (Hsplit : split "^" (ab ++ "^" ++ cd) = [ab; cd]).
  { change (ab ++ "^" ++ cd) with (ab ++ String "^" cd).
    now rewrite (split_append_sep "^" ab cd Hab), (split_without_sep "^" cd Hcd). }
  unfold parse_axis, parse_crossed_vector.
  rewrite Hab, Hcross, Hsplit, Pab, Pcd.
  repeat split; reflexivity.
Qed.

(** X3. [parse_axis] reads the two notations of an axis: [vec(a>b)] is the
    vector from landmark [a] to landmark [b], and [vec(a>b)^vec(c>d)] is the
    cross product of two such vectors, of which [side] selects the whole or
    one operand; asking for one operand of a token that is not a cross
    product raises [ValueError]. *)
Theorem parse_axis_reads_vectors (a b c d : string) (la lb lc ld : L) :
  plain a -> plain b -> plain c -> plain d ->
  from_string a = Returns la -> from_string b = Returns lb ->
  from_string c = Returns lc -> from_string d = Returns ld ->
  let ab := "vec(" ++ a ++ ">" ++ b ++ ")" in
  let cd := "vec(" ++ c ++ ">" ++ d ++ ")" in
  parse_axis ab "all" = Returns (StartEndVector la lb)
  /\ parse_axis (ab ++ "^" ++ cd) "all"
     = Returns (CrossedVector (StartEndVector la lb) (StartEndVector lc ld))
  /\ parse_axis (ab ++ "^" ++ cd) "first" = Returns (StartEndVector la lb)
  /\ parse_axis (ab ++ "^" ++ cd) "second" = Returns (StartEndVector lc ld)
  /\ parse_axis ab "first" = Raises ValueError
  /\ parse_axis ab "second" = Raises ValueError.
Proof. apply parse_axis_vec_tokens. Qed.

(** X11. The frame of two explicit axes: when two axes are written
    [vec(a>b)] and [vec(c>d)] and the third one ["x^y"], ["z^x"] or ["y^z"],
    [Frame.from_xyz_string] returns the frame of the two vectors read, with
    the cross product of the two, in that order, as third axis. *)
Theorem from_xyz_string_two_explicit_axes
    (a b c d o : string) (la lb lc ld lo : L) (segment : Segment) :
  plain a -> plain b -> plain c -> plain d ->
  from_string a = Returns la -> from_string b = Returns lb ->
  from_string c = Returns lc -> from_string d = Returns ld ->
  from_string o = Returns lo ->
  let ab := "vec(" ++ a ++ ">" ++ b ++ ")" in
  let cd := "vec(" ++ c ++ ">" ++ d ++ ")" in
  let u := StartEndVector la lb in
  let v := StartEndVector lc ld in
  from_xyz_string ab cd "x^y" o segment
    = Returns (Some (Frame_init u v (CrossedVector u v) lo segment))
  /\ from_xyz_string ab "z^x" cd o segment
     = Returns (Some (Frame_init u (CrossedVector v u) v lo segment))
  /\ from_xyz_string "y^z" ab cd o segment
     = Returns (Some (Frame_init (CrossedVector u v) u v lo segment)).
Proof.
  intros Ha Hb Hc Hd Hla Hlb Hlc Hld Hlo ab cd u v.
  pose proof (caret_vec_token a b Ha Hb) as Hab.
  pose proof (caret_vec_token c d Hc Hd) as Hcd.
  fold ab in Hab. fold cd in Hcd.
  destruct (parse_axis_vec_tokens a b c d Ha Hb Hc Hd Hla Hlb Hlc Hld)
    as (Pab & _).
  destruct (parse_axis_vec_tokens c d a b Hc Hd Ha Hb Hlc Hld Hla Hlb)
    as (Pcd & _).
  fold ab in Pab. fold cd in Pcd.
  assert (Nab : (ab =? "y^z") = false /\ (ab =? "z^x") = false)
    by (split; apply String.eqb_neq; discriminate).
  assert (Ncd : (cd =? "z^x") = false)
    by (apply String.eqb_neq; discriminate).
  unfold from_xyz_string, is_one_axis_crossed_twice, is_x_axis_crossed_twice,
    is_y_axis_crossed_twice, is_z_axis_crossed_twice, from_once_crossed.
  rewrite !(str_in_absent "^" _ _ Hab), !(str_in_absent "^" _ _ Hcd).
  rewrite !(str_in_absent_second _ "^" _ _ Hab), !(str_in_absent_second _ "^" _ _ Hcd).
  rewrite !andb_false_r, !andb_false_l. simpl orb. cbv iota.
  rewrite (proj1 Nab), (proj2 Nab), Ncd, Hlo, Pab, Pcd.
  repeat split; reflexivity.
Qed.

(** X5. The frame of one axis crossed twice: with the x axis written
    [vec(a>b)], the y axis [vec(c>d)^x] and the z axis ["x^y"], the frame
    has y = [vec(c>d)] x x and z = x x y; with the z axis written [vec(c>d)],
    the x axis [vec(a>b)^z] and the y axis ["z^x"], it has x = [vec(a>b)] x z
    and y = z x x.  Only the first operand of the crossed token is read. *)
Theorem from_xyz_string_one_axis_crossed_twice
    (a b c d o : string) (la lb lc ld lo : L) (segment : Segment) :
  plain a -> plain b -> plain c -> plain d ->
  from_string a = Returns la -> from_string b = Returns lb ->
  from_string c = Returns lc -> from_string d = Returns ld ->
  from_string o = Returns lo ->
  let ab := "vec(" ++ a ++ ">" ++ b ++ ")" in
  let cd := "vec(" ++ c ++ ">" ++ d ++ ")" in
  let u := StartEndVector la lb in
  let v := StartEndVector lc ld in
  from_xyz_string ab (cd ++ "^x") "x^y" o segment
    = Returns (Some (Frame_init u (CrossedVector v u)
                       (CrossedVector u (CrossedVector v u)) lo segment))
  /\ from_xyz_string (ab ++ "^z") "z^x" cd o segment
     = Returns (Some (Frame_init (CrossedVector u v)
                        (CrossedVector v (CrossedVector u v)) v lo segment)).
Proof.
  intros Ha Hb Hc Hd Hla Hlb Hlc Hld Hlo ab cd u v.
  pose proof (caret_vec_token a b Ha Hb) as Hab.
  pose proof (caret_vec_token c d Hc Hd) as Hcd.
  pose proof (parse_vector_token a b Ha Hb Hla Hlb) as Vab.
  pose proof (parse_vector_token c d Hc Hd Hlc Hld) as Vcd.
  fold ab in Hab, Vab. fold cd in Hcd, Vcd.
  destruct (parse_axis_vec_tokens a b c d Ha Hb Hc Hd Hla Hlb Hlc Hld)
    as (Pab & _).
  destruct (parse_axis_vec_tokens c d a b Hc Hd Ha Hb Hlc Hld Hla Hlb)
    as (Pcd & _).
  fold ab in Pab. fold cd in Pcd.
  assert (Hfirst : forall t w tail,
            str_in "^" t = false -> str_in "^" tail = false ->
            parse_vector t = Returns w ->
            parse_axis (L:=L) (t ++ String "^" tail) "first" = Returns w).
  { intros t w tail Ht Htail Hw. unfold parse_axis, parse_crossed_vector.
    rewrite str_in_char_append, Ht.
    rewrite str_in_char_cons, Ascii.eqb_refl. simpl orb. cbv iota.
    rewrite (split_append_sep "^" t tail Ht), (split_without_sep "^" tail Htail).
    simpl. exact Hw. }
  split.
  - unfold from_xyz_string, is_one_axis_crossed_twice, is_x_axis_crossed_twice,
      from_twice_crossed.
    assert (Hy : str_in "^x" (cd ++ "^x") = true).
    { clear. induction cd as [|ch rest IH]; [reflexivity |].
      change (String ch rest ++ "^x") with (String ch (rest ++ "^x")).
      simpl. simpl in IH. rewrite IH. apply orb_true_r. }
    rewrite Hy. simpl andb. simpl orb. cbv iota.
    unfold is_x_axis_crossed_twice. rewrite Hy. simpl andb. cbv iota.
    rewrite Pab. cbn [bind].
    rewrite (Hfirst cd v "x" Hcd eq_refl Vcd). cbn [bind]. rewrite Hlo. reflexivity.
  - unfold from_xyz_string, is_one_axis_crossed_twice, is_x_axis_crossed_twice,
      is_y_axis_crossed_twice, is_z_axis_crossed_twice, from_twice_crossed.
    assert (Hz : str_in "^z" (ab ++ "^z") = true).
    { clear. induction ab as [|ch rest IH]; [reflexivity |].
      change (String ch rest ++ "^z") with (String ch (rest ++ "^z")).
      simpl. simpl in IH. rewrite IH. apply orb_true_r. }
    rewrite (str_in_absent_second "x" "^" _ _ Hcd).
    rewrite (str_in_absent "^" _ _ Hcd).
    rewrite Hz. simpl andb. simpl orb. cbv iota.
    unfold is_x_axis_crossed_twice, is_y_axis_crossed_twice, is_z_axis_crossed_twice.
    rewrite (str_in_absent_second "x" "^" _ _ Hcd).
    rewrite (str_in_absent "^" _ _ Hcd).
    rewrite Hz. simpl andb. rewrite !andb_false_r. cbv iota.
    rewrite (Hfirst ab u "z" Hab eq_refl Vab). cbn [bind]. rewrite Pcd. cbn [bind].
    rewrite Hlo. reflexivity.
Qed.

(** What the parser returns holds no [None]. *)
Lemma parse_vector_well_formed (input : string) (v : VectorBase L) :
  parse_vector input = Returns v -> well_formed v = true.
Proof.
  unfold parse_vector, StartEndVector_from_strings.
  destruct (parse_start_end_vector input) as [[start end_]|e]; simpl; [|discriminate].
  destruct (from_string start); simpl; [|discriminate].
  destruct (from_string end_); simpl; [|discriminate].
  intros Hv. injection Hv as <-. reflexivity.
Qed.

Lemma parse_axis_well_formed (input side : string) (v : VectorBase L) :
  parse_axis input side = Returns v -> well_formed v = true.
Proof.
  unfold parse_axis, parse_crossed_vector.
  destruct (str_in "^" input).
  - destruct (split "^" input) as [|first_vector [|second_vector [|? ?]]];
      try discriminate.
    destruct (side =? "all").
    + destruct (parse_vector first_vector) as [v1|e] eqn:H1; simpl; [|discriminate].
      destruct (parse_vector second_vector) as [v2|e] eqn:H2; simpl; [|discriminate].
      intros Hv. injection Hv as <-. simpl.
      now rewrite (parse_vector_well_formed _ H1), (parse_vector_well_formed _ H2).
    + destruct (side =? "first"); [apply parse_vector_well_formed |].
      destruct (side =? "second"); [apply parse_vector_well_formed | discriminate].
  - destruct ((side =? "first") || (side =? "second")); [discriminate |].
    apply parse_vector_well_formed.
Qed.

Lemma from_xyz_string_frame_inv
    (x y z o : string) (segment : Segment) (r : option (Frame L)) :
  from_xyz_string x y z o segment = Returns r ->
  exists f : Frame L,
    r = Some f /\
    one_axis_is_cross_of_others f /\
    axes_well_formed f
    = negb (negb (is_x_axis_crossed_twice x y z) && is_y_axis_crossed_twice x y z).
Proof.
  unfold from_xyz_string, is_one_axis_crossed_twice, from_twice_crossed,
    from_once_crossed, one_axis_is_cross_of_others, axes_well_formed.
  destruct (is_x_axis_crossed_twice x y z); simpl.
  - destruct (parse_axis x "all") as [vx|e] eqn:Hx; simpl; [|discriminate].
    destruct (parse_axis y "first") as [vz|e] eqn:Hz; simpl; [|discriminate].
    destruct (from_string o) as [lo|e]; simpl; [|discriminate].
    intros Hr. injection Hr as <-. eexists. split; [reflexivity |]. simpl.
    rewrite (parse_axis_well_formed _ _ Hx), (parse_axis_well_formed _ _ Hz).
    split; [right; right; reflexivity | reflexivity].
  - destruct (is_y_axis_crossed_twice x y z); simpl.
    + destruct (from_string o) as [lo|e]; simpl; [|discriminate].
      intros Hr. injection Hr as <-. eexists. split; [reflexivity |]. simpl.
      split; [left; reflexivity | reflexivity].
    + destruct (is_z_axis_crossed_twice x y z); simpl.
      * destruct (parse_axis x "first") as [vy|e] eqn:Hy; simpl; [|discriminate].
        destruct (parse_axis z "all") as [vz|e] eqn:Hz; simpl; [|discriminate].
        destruct (from_string o) as [lo|e]; simpl; [|discriminate].
        intros Hr. injection Hr as <-. eexists. split; [reflexivity |]. simpl.
        rewrite (parse_axis_well_formed _ _ Hy), (parse_axis_well_formed _ _ Hz).
        split; [right; left; reflexivity | reflexivity].
      * destruct (x =? "y^z"); [|destruct (y =? "z^x"); [|destruct (z =? "x^y")]];
          simpl; try discriminate;
          (destruct (from_string o) as [lo|e]; simpl; [|discriminate]);
          match goal with
          | |- context [parse_axis ?t "all"] =>
              destruct (parse_axis t "all") as [v1|e] eqn:H1; simpl; [|discriminate]
          end;
          match goal with
          | |- context [parse_axis ?t "all"] =>
              destruct (parse_axis t "all") as [v2|e] eqn:H2; simpl; [|discriminate]
          end;
          intros Hr; injection Hr as <-; eexists; (split; [reflexivity |]); simpl;
          rewrite (parse_axis_well_formed _ _ H1), (parse_axis_well_formed _ _ H2);
          (split; [auto | reflexivity]).
Qed.

(** X4. [Frame.from_xyz_string] never returns [None]; in the frame it
    returns one axis is the cross product of the two others taken in cyclic
    order; and the axes hold a [None] exactly on the y-axis-crossed-twice
    branch (the y pattern matches and the x pattern, tested first, does
    not). *)
Theorem from_xyz_string_frame
    (x y z o : string) (segment : Segment) (r : option (Frame L)) :
  from_xyz_string x y z o segment = Returns r ->
  exists f : Frame L,
    r = Some f /\
    one_axis_is_cross_of_others f /\
    axes_well_formed f
    = negb (negb (is_x_axis_crossed_twice x y z) && is_y_axis_crossed_twice x y z).
Proof. apply from_xyz_string_frame_inv. Qed.

End ParserFacts.

Section ClassificationFacts.
Context {L : Type} `{AnatomicalLandmarks L}.
Context {num : Type} `{Arith num} `{BiomechConstant L num}.

Lemma landmarks_returns (v : VectorBase L) :
  well_formed v = true -> exists ls, landmarks v = Returns ls.
Proof.
  induction v as [|start end_|v1 IH1 v2 IH2]; simpl; intros Hwf.
  - discriminate.
  - eexists. reflexivity.
  - apply andb_true_iff in Hwf. destruct Hwf as [Hwf1 Hwf2].
    destruct (IH1 Hwf1) as [l1 ->]. destruct (IH2 Hwf2) as [l2 ->].
    simpl. eexists. reflexivity.
Qed.

Lemma landmarks_raises (v : VectorBase L) :
  well_formed v = false -> landmarks v = Raises AttributeError.
Proof.
  induction v as [|start end_|v1 IH1 v2 IH2]; simpl; intros Hwf.
  - reflexivity.
  - discriminate.
  - destruct (well_formed v1) eqn:Hwf1.
    + destruct (landmarks_returns v1 Hwf1) as [l1 ->]. simpl.
      rewrite (IH2 Hwf). reflexivity.
    + rewrite (IH1 eq_refl). reflexivity.
Qed.

Lemma compute_default_vector_raises (v : VectorBase L) :
  well_formed v = false -> compute_default_vector v = Raises AttributeError.
Proof.
  induction v as [|start end_|v1 IH1 v2 IH2]; simpl; intros Hwf.
  - reflexivity.
  - discriminate.
  - destruct (well_formed v1) eqn:Hwf1.
    + destruct (FrameReaderProps.compute_default_vector_returns v1 Hwf1) as [d1 ->].
      simpl. rewrite (IH2 Hwf). reflexivity.
    + rewrite (IH1 eq_refl). reflexivity.
Qed.

(** A vector has landmarks and a default vector exactly when no operand
    below it is [None]; otherwise both raise [AttributeError]. *)
Lemma vector_methods_outcomes (v : VectorBase L) :
  (well_formed v = true ->
   (exists ls, landmarks v = Returns ls) /\
   (exists d, compute_default_vector v = Returns d) /\
   (exists a, principal_direction v = Returns a))
  /\
  (well_formed v = false ->
   landmarks v = Raises AttributeError /\
   compute_default_vector v = Raises AttributeError /\
   principal_direction v = Raises AttributeError).
Proof.
  split; intros Hwf.
  - split; [apply landmarks_returns, Hwf |].
    destruct (FrameReaderProps.compute_default_vector_returns v Hwf) as [d Hd].
    split; [exists d; exact Hd |].
    unfold principal_direction. rewrite Hd. simpl. eexists. reflexivity.
  - split; [apply landmarks_raises, Hwf |].
    unfold principal_direction.
    rewrite (compute_default_vector_raises v Hwf). split; reflexivity.
Qed.

Lemma principal_direction_returns (v : VectorBase L) :
  well_formed v = true -> exists a, principal_direction v = Returns a.
Proof. intros Hwf. apply (proj1 (vector_methods_outcomes v) Hwf). Qed.

Lemma is_isb_returns (f : Frame L) :
  axes_well_formed f = true -> exists b, is_isb f = Returns b.
Proof.
  unfold axes_well_formed. intros Hwf.
  apply andb_true_iff in Hwf. destruct Hwf as [Hwf Hz].
  apply andb_true_iff in Hwf. destruct Hwf as [Hx Hy].
  unfold is_isb, has_isb_landmarks, Frame_landmarks, is_x_axis_postero_anterior,
    is_y_axis_supero_inferior, is_z_axis_medio_lateral, is_origin_isb, and_then.
  destruct (landmarks_returns _ Hx) as [lx ->].
  destruct (landmarks_returns _ Hy) as [ly ->].
  destruct (landmarks_returns _ Hz) as [lz ->].
  destruct (principal_direction_returns _ Hx) as [dx ->].
  destruct (principal_direction_returns _ Hy) as [dy ->].
  destruct (principal_direction_returns _ Hz) as [dz ->].
  simpl.
  repeat match goal with
         | |- context [if ?b then _ else _] => destruct b
         end; eexists; reflexivity.
Qed.

Lemma is_isb_raises (f : Frame L) :
  axes_well_formed f = false ->
  Frame_landmarks f = Raises AttributeError /\ is_isb f = Raises AttributeError.
Proof.
  unfold axes_well_formed. intros Hwf.
  assert (Hl : Frame_landmarks f = Raises AttributeError).
  { unfold Frame_landmarks.
    destruct (well_formed (x_axis f)) eqn:Hx.
    - destruct (landmarks_returns _ Hx) as [lx ->]. simpl.
      destruct (well_formed (y_axis f)) eqn:Hy.
      + destruct (landmarks_returns _ Hy) as [ly ->]. simpl.
        simpl in Hwf. rewrite (landmarks_raises _ Hwf). reflexivity.
      + rewrite (landmarks_raises _ Hy). reflexivity.
    - rewrite (landmarks_raises _ Hx). reflexivity. }
  split; [exact Hl |].
  unfold is_isb, has_isb_landmarks, and_then. rewrite Hl. reflexivity.
Qed.

(** X6. Classifying a frame read by [Frame.from_xyz_string]: [is_isb]
    answers with a boolean on every frame, except on the frames of the
    y-axis-crossed-twice branch, for which [Frame.landmarks] and [is_isb]
    raise [AttributeError]. *)
Theorem is_isb_on_parsed_frames
    (x y z o : string) (segment : Segment) (f : Frame L) :
  from_xyz_string x y z o segment = Returns (Some f) ->
  (negb (is_x_axis_crossed_twice x y z) && is_y_axis_crossed_twice x y z = false ->
   exists b : bool, is_isb f = Returns b)
  /\
  (negb (is_x_axis_crossed_twice x y z) && is_y_axis_crossed_twice x y z = true ->
   Frame_landmarks f = Raises AttributeError /\ is_isb f = Raises AttributeError).
Proof.
  intros Hparse.
  destruct (from_xyz_string_frame_inv _ _ _ _ _ Hparse) as (f' & Hf & _ & Hwf).
  injection Hf as <-.
  split; intros Hbranch; rewrite Hbranch in Hwf.
  - apply is_isb_returns, Hwf.
  - apply is_isb_raises, Hwf.
Qed.

(** *** Landmarks of a frame *)

Lemma dict_fromkeys_In (t : list L) (a : L) : In a (dict_fromkeys t) <-> In a t.
Proof.
  induction t as [|b t IH]; simpl; [reflexivity |].
  rewrite filter_In, IH. split.
  - intros [Hb|[Ha _]]; auto.
  - intros [Hb|Ha]; [auto |].
    destruct (landmark_eqb_spec b a) as [Heq|Hne]; [auto |].
    right. split; [exact Ha | reflexivity].
Qed.

Lemma dict_fromkeys_NoDup (t : list L) : NoDup (dict_fromkeys t).
Proof.
  induction t as [|b t IH]; simpl; constructor.
  - rewrite filter_In. intros [_ Hb].
    destruct (landmark_eqb_spec b b); [discriminate | congruence].
  - apply NoDup_filter, IH.
Qed.

(** X7. [Frame.landmarks] lists every landmark of the three axes once:
    the list has no duplicate and holds a landmark exactly when one of the
    axes does. *)
Theorem Frame_landmarks_each_once (f : Frame L) (ls : list L) :
  Frame_landmarks f = Returns ls ->
  NoDup ls /\
  exists lx ly lz,
    landmarks (x_axis f) = Returns lx /\
    landmarks (y_axis f) = Returns ly /\
    landmarks (z_axis f) = Returns lz /\
    forall a, In a ls <-> In a lx \/ In a ly \/ In a lz.
Proof.
  unfold Frame_landmarks.
  destruct (landmarks (x_axis f)) as [lx|e]; simpl; [|discriminate].
  destruct (landmarks (y_axis f)) as [ly|e]; simpl; [|discriminate].
  destruct (landmarks (z_axis f)) as [lz|e]; simpl; [|discriminate].
  intros Hls. injection Hls as <-. split; [apply dict_fromkeys_NoDup |].
  exists lx, ly, lz. repeat split; try reflexivity.
  - rewrite dict_fromkeys_In, !in_app_iff. tauto.
  - rewrite dict_fromkeys_In, !in_app_iff. tauto.
Qed.

(** *** Anatomical axes *)

Lemma CartesianAxis_eqb_eq (a b : CartesianAxis) :
  CartesianAxis_eqb a b = true <-> a = b.
Proof. destruct a, b; simpl; split; congruence. Qed.

Lemma along_iff (d d1 d2 : CartesianAxis) :
  CartesianAxis_eqb d d1 || CartesianAxis_eqb d d2 = true <-> d = d1 \/ d = d2.
Proof. now rewrite orb_true_iff, !CartesianAxis_eqb_eq. Qed.

(** What the search loops of the anatomical-axis properties find. *)
Lemma first_axis_along_spec (d1 d2 : CartesianAxis) (l : list (VectorBase L))
    (r : option (VectorBase L)) :
  first_axis_along d1 d2 l = Returns r ->
  match r with
  | Some v =>
      In v l /\
      exists d, principal_direction v = Returns d /\ (d = d1 \/ d = d2) /\
                first_direction_along d1 d2 l = Returns (Some d)
  | None =>
      first_direction_along d1 d2 l = Returns None /\
      forall v, In v l ->
                exists d, principal_direction v = Returns d /\ d <> d1 /\ d <> d2
  end.
Proof.
  revert r. induction l as [|axis rest IH]; simpl; intros r Hr.
  - injection Hr as <-. split; [reflexivity | intros v []].
  - destruct (principal_direction axis) as [d|e] eqn:Hd; simpl in *; [|discriminate].
    destruct (CartesianAxis_eqb d d1 || CartesianAxis_eqb d d2) eqn:Hin.
    + injection Hr as <-. split; [left; reflexivity |].
      exists d. rewrite Hd. simpl. repeat split; [apply along_iff, Hin].
    + specialize (IH r Hr). destruct r as [v|].
      * destruct IH as (Hv & d' & Hd' & Hor & Hloc).
        split; [right; exact Hv |]. exists d'. repeat split; assumption.
      * destruct IH as (Hloc & Hall). split; [exact Hloc |].
        intros v [<-|Hv]; [|apply Hall, Hv].
        exists d. split; [exact Hd |].
        apply orb_false_iff in Hin. destruct Hin as [Hn1 Hn2].
        split; intros Heq; apply CartesianAxis_eqb_eq in Heq; congruence.
Qed.

(** X8. The anatomical-axis properties of a frame return one of the axes
    x, y, z, whose principal direction is along the wanted Cartesian axis, in
    either sense; the [_local_axis] property then returns that direction; and
    when the axis property returns [None], the [_local_axis] property returns
    [None] too. *)
Theorem anatomical_axes_first_match (f : Frame L) :
  (forall r, postero_anterior_axis f = Returns r ->
     match r with
     | Some v =>
         In v (axes f) /\
         exists d, principal_direction v = Returns d /\ (d = plusX \/ d = minusX) /\
                   postero_anterior_local_axis f = Returns (Some d)
     | None => postero_anterior_local_axis f = Returns None
     end)
  /\
  (forall r, infero_superior_axis f = Returns r ->
     match r with
     | Some v =>
         In v (axes f) /\
         exists d, principal_direction v = Returns d /\ (d = plusY \/ d = minusY) /\
                   infero_superior_local_axis f = Returns (Some d)
     | None => infero_superior_local_axis f = Returns None
     end)
  /\
  (forall r, medio_lateral_axis f = Returns r ->
     match r with
     | Some v =>
         In v (axes f) /\
         exists d, principal_direction v = Returns d /\ (d = plusZ \/ d = minusZ) /\
                   medio_lateral_local_axis f = Returns (Some d)
     | None => medio_lateral_local_axis f = Returns None
     end).
Proof.
  unfold postero_anterior_axis, infero_superior_axis, medio_lateral_axis,
    postero_anterior_local_axis, infero_superior_local_axis, medio_lateral_local_axis.
  repeat split; intros r Hr; apply first_axis_along_spec in Hr;
    destruct r; [exact Hr | exact (proj1 Hr) | exact Hr | exact (proj1 Hr)
                 | exact Hr | exact (proj1 Hr)].
Qed.

(** X9. In a frame that [is_isb] accepts, the postero-anterior,
    infero-superior and medio-lateral axes are the x, y and z axes, and their
    local directions are +X, +Y and +Z. *)
Theorem isb_frame_anatomical_axes (f : Frame L) :
  is_isb f = Returns true ->
  postero_anterior_axis f = Returns (Some (x_axis f)) /\
  infero_superior_axis f = Returns (Some (y_axis f)) /\
  medio_lateral_axis f = Returns (Some (z_axis f)) /\
  postero_anterior_local_axis f = Returns (Some plusX) /\
  infero_superior_local_axis f = Returns (Some plusY) /\
  medio_lateral_local_axis f = Returns (Some plusZ).
Proof.
  unfold is_isb. rewrite !FrameReaderProps.and_then_true.
  unfold is_x_axis_postero_anterior, is_y_axis_supero_inferior,
    is_z_axis_medio_lateral.
  rewrite !FrameReaderProps.axis_check_true.
  intros (_ & Hx & Hy & Hz & _).
  unfold postero_anterior_axis, infero_superior_axis, medio_lateral_axis,
    postero_anterior_local_axis, infero_superior_local_axis,
    medio_lateral_local_axis, axes.
  simpl. rewrite Hx, Hy, Hz. simpl. repeat split; reflexivity.
Qed.

End ClassificationFacts.

(** *** Concrete runs *)

Section Runs.
Import Sample.

Lemma parse_start_end_vector_round_trip_witness :
  parse_start_end_vector ("vec(" ++ "GH" ++ ">" ++ "EL" ++ ")") = Returns ("GH", "EL").
Proof. apply parse_start_end_vector_round_trip; reflexivity. Defined.

Lemma parse_axis_reads_vectors_witness :
  let ab := "vec(" ++ "EL" ++ ">" ++ "GH" ++ ")" in
  let cd := "vec(" ++ "EM" ++ ">" ++ "EL" ++ ")" in
  parse_axis ab "all" = Returns (StartEndVector EL GH)
  /\ parse_axis (ab ++ "^" ++ cd) "all"
     = Returns (CrossedVector (StartEndVector EL GH) (StartEndVector EM EL))
  /\ parse_axis (ab ++ "^" ++ cd) "first" = Returns (StartEndVector EL GH)
  /\ parse_axis (ab ++ "^" ++ cd) "second" = Returns (StartEndVector EM EL)
  /\ parse_axis ab "first" = Raises ValueError
  /\ parse_axis ab "second" = Raises ValueError.
Proof.
  apply (parse_axis_reads_vectors (L:=Landmark) "EL" "GH" "EM" "EL"); reflexivity.
Defined.

Lemma from_xyz_string_frame_witness :
  from_xyz_string "vec(EL>GH)^vec(EM>EL)" "vec(EL>GH)" "x^y" "GH" HUMERUS
    = Returns (Some humerus_isb_frame)
  /\ exists f : Frame Landmark,
       Some humerus_isb_frame = Some f /\
       one_axis_is_cross_of_others f /\
       axes_well_formed f
       = negb (negb (is_x_axis_crossed_twice "vec(EL>GH)^vec(EM>EL)" "vec(EL>GH)" "x^y")
               && is_y_axis_crossed_twice "vec(EL>GH)^vec(EM>EL)" "vec(EL>GH)" "x^y").
Proof.
  split; [reflexivity |].
  apply (from_xyz_string_frame (L:=Landmark)
           "vec(EL>GH)^vec(EM>EL)" "vec(EL>GH)" "x^y" "GH" HUMERUS).
  reflexivity.
Defined.

Lemma is_isb_on_parsed_frames_witness :
  (negb (is_x_axis_crossed_twice "vec(EL>GH)^vec(EM>EL)" "vec(EL>GH)" "x^y")
   && is_y_axis_crossed_twice "vec(EL>GH)^vec(EM>EL)" "vec(EL>GH)" "x^y" = false ->
   exists b : bool, is_isb (num:=PrimFloat.float) humerus_isb_frame = Returns b)
  /\
  (negb (is_x_axis_crossed_twice "vec(EL>GH)^vec(EM>EL)" "vec(EL>GH)" "x^y")
   && is_y_axis_crossed_twice "vec(EL>GH)^vec(EM>EL)" "vec(EL>GH)" "x^y" = true ->
   Frame_landmarks humerus_isb_frame = Raises AttributeError /\
   is_isb (num:=PrimFloat.float) humerus_isb_frame = Raises AttributeError).
Proof.
  apply (is_isb_on_parsed_frames (num:=PrimFloat.float)
           "vec(EL>GH)^vec(EM>EL)" "vec(EL>GH)" "x^y" "GH" HUMERUS).
  reflexivity.
Defined.

Lemma Frame_landmarks_each_once_witness :
  Frame_landmarks humerus_isb_frame = Returns [EL; GH; EM]
  /\ NoDup [EL; GH; EM]
  /\ exists lx ly lz,
       landmarks (x_axis humerus_isb_frame) = Returns lx /\
       landmarks (y_axis humerus_isb_frame) = Returns ly /\
       landmarks (z_axis humerus_isb_frame) = Returns lz /\
       forall a, In a [EL; GH; EM] <-> In a lx \/ In a ly \/ In a lz.
Proof.
  split; [reflexivity |].
  apply (Frame_landmarks_each_once humerus_isb_frame). reflexivity.
Defined.

Lemma isb_frame_anatomical_axes_witness :
  is_isb (num:=PrimFloat.float) humerus_isb_frame = Returns true
  /\ postero_anterior_axis (num:=PrimFloat.float) humerus_isb_frame
     = Returns (Some (x_axis humerus_isb_frame))
  /\ infero_superior_axis (num:=PrimFloat.float) humerus_isb_frame
     = Returns (Some (y_axis humerus_isb_frame))
  /\ medio_lateral_axis (num:=PrimFloat.float) humerus_isb_frame
     = Returns (Some (z_axis humerus_isb_frame))
  /\ postero_anterior_local_axis (num:=PrimFloat.float) humerus_isb_frame
     = Returns (Some plusX)
  /\ infero_superior_local_axis (num:=PrimFloat.float) humerus_isb_frame
     = Returns (Some plusY)
  /\ medio_lateral_local_axis (num:=PrimFloat.float) humerus_isb_frame
     = Returns (Some plusZ).
Proof.
  split; [vm_compute; reflexivity |].
  apply (isb_frame_anatomical_axes (num:=PrimFloat.float) humerus_isb_frame).
  vm_compute. reflexivity.
Defined.

Lemma from_xyz_string_two_explicit_axes_witness :
  let ab := "vec(" ++ "EL" ++ ">" ++ "GH" ++ ")" in
  let cd := "vec(" ++ "EM" ++ ">" ++ "EL" ++ ")" in
  let u := StartEndVector EL GH in
  let v := StartEndVector EM EL in
  from_xyz_string ab cd "x^y" "GH" HUMERUS
    = Returns (Some (Frame_init u v (CrossedVector u v) GH HUMERUS))
  /\ from_xyz_string ab "z^x" cd "GH" HUMERUS
     = Returns (Some (Frame_init u (CrossedVector v u) v GH HUMERUS))
  /\ from_xyz_string "y^z" ab cd "GH" HUMERUS
     = Returns (Some (Frame_init (CrossedVector u v) u v GH HUMERUS)).
Proof.
  apply (from_xyz_string_two_explicit_axes (L:=Landmark) "EL" "GH" "EM" "EL" "GH");
    reflexivity.
Defined.

Lemma from_xyz_string_one_axis_crossed_twice_witness :
  let ab := "vec(" ++ "EL" ++ ">" ++ "GH" ++ ")" in
  let cd := "vec(" ++ "EM" ++ ">" ++ "EL" ++ ")" in
  let u := StartEndVector EL GH in
  let v := StartEndVector EM EL in
  from_xyz_string ab (cd ++ "^x") "x^y" "GH" HUMERUS
    = Returns (Some (Frame_init u (CrossedVector v u)
                       (CrossedVector u (CrossedVector v u)) GH HUMERUS))
  /\ from_xyz_string (ab ++ "^z") "z^x" cd "GH" HUMERUS
     = Returns (Some (Frame_init (CrossedVector u v)
                        (CrossedVector v (CrossedVector u v)) v GH HUMERUS)).
Proof.
  apply (from_xyz_string_one_axis_crossed_twice (L:=Landmark)
           "EL" "GH" "EM" "EL" "GH");
    reflexivity.
Defined.

End Runs.

End FrameReaderMore.

(** ** [DataFolder] *)

Module EnumsProps.
Import Enums.

Local Open Scope string_scope.

Lemma DataFolder_eqb_refl (d : DataFolder) : DataFolder_eqb d d = true.
Proof. unfold DataFolder_eqb. apply Nat.eqb_refl. Qed.

(** X12. [DataFolder.from_string] is the inverse of the folder names of the
    members: the name of a member's folder is read back as that member, a
    string is accepted only if it is the folder name of the member returned,
    and every other string raises [ValueError]. *)
Theorem from_string_folder_round_trip :
  (forall d : DataFolder, from_string (folder d) = Returns d)
  /\ (forall (s : string) (d : DataFolder), from_string s = Returns d -> s = folder d)
  /\ (forall s : string,
        (forall d, s <> folder d) -> from_string s = Raises ValueError).
Proof.
  assert (Hinv : forall (s : string) (d : DataFolder),
             from_string s = Returns d -> s = folder d).
  { intros s d. unfold from_string, folder_name_to_enum, dict_get.
    repeat match goal with
           | |- context [String.eqb ?a s] =>
               destruct (String.eqb_spec a s) as [<-|_];
               [intros Hd; injection Hd as <-; reflexivity |]
           end.
    discriminate. }
  split; [|split].
  - intros d. destruct d; reflexivity.
  - exact Hinv.
  - intros s Hs. pose proof (Hinv s) as Hs'. unfold from_string in *.
    destruct (dict_get String.eqb folder_name_to_enum s) as [d|]; [|reflexivity].
    exfalso. apply (Hs d), Hs'. reflexivity.
Qed.

(** X13. [DataFolder.to_dataset_author] returns an author for every member
    (its [ValueError] branch is never taken), two members never share an
    author, and no two members share a folder. *)
Theorem to_dataset_author_total_injective :
  (forall d : DataFolder, exists author, to_dataset_author d = Returns author)
  /\ (forall d1 d2 : DataFolder, to_dataset_author d1 = to_dataset_author d2 -> d1 = d2)
  /\ (forall d1 d2 : DataFolder, folder d1 = folder d2 -> d1 = d2).
Proof.
  split; [|split].
  - intros d. destruct d; eexists; reflexivity.
  - intros d1 d2. destruct d1, d2; vm_compute; intros Heq;
      first [reflexivity | discriminate Heq].
  - intros d1 d2. destruct d1, d2; simpl; intros Heq;
      first [reflexivity | discriminate Heq].
Qed.

End EnumsProps.
